(** * creacionesJL: the authentication synchronizer

    A shallow embedding of [src/database/authService.tsx] and
    [src/context/AuthContext.tsx].  The identity provider (the Supabase
    client) is a black box: each call to it suspends the running
    function, and the environment later settles the call with any
    response or with a thrown value.  The event loop is single-threaded:
    a function runs without interruption from one await to the next, and
    React applies the state writes of one such run together. *)

From Stdlib Require Import List Arith NArith Bool String Ascii Lia.
Import ListNotations.

Set Implicit Arguments.

(** ** JavaScript strings

    A JavaScript string is a sequence of UTF-16 code units. *)

Definition jsstring := list N.

(** An ASCII literal as a JavaScript string. *)
Definition js (s : string) : jsstring :=
  map N_of_ascii (list_ascii_of_string s).

(** WhiteSpace and LineTerminator code points of ECMAScript, the ones
    [String.prototype.trim] strips. *)
Definition isWhiteSpace (c : N) : bool :=
  ((c =? 9) || (c =? 10) || (c =? 11) || (c =? 12) || (c =? 13) || (c =? 32)
   || (c =? 160) || (c =? 5760) || ((8192 <=? c) && (c <=? 8202))
   || (c =? 8232) || (c =? 8233) || (c =? 8239) || (c =? 8287)
   || (c =? 12288) || (c =? 65279))%N.

Fixpoint trimStart (s : jsstring) : jsstring :=
  match s with
  | [] => []
  | c :: s' => if isWhiteSpace c then trimStart s' else s
  end.

Definition trimEnd (s : jsstring) : jsstring := rev (trimStart (rev s)).

(** [s.trim()] *)
Definition trim (s : jsstring) : jsstring := trimEnd (trimStart s).

(** [a || ''] for an optional string argument [a]: [undefined] and the
    empty string are the falsy strings. *)
Definition or_empty (a : option jsstring) : jsstring :=
  match a with
  | Some (c :: s) => c :: s
  | Some [] => []
  | None => []
  end.

Definition SPACE : N := 32.

(** ** The provider's types, as far as the code reads them *)

Module User.
Record t : Type := { id : jsstring; email : jsstring }.
End User.

Module Session.
Record t : Type := { access_token : jsstring; user : User.t }.
End Session.

Record AuthError : Type := { name : jsstring; message : jsstring }.

(** A value thrown by a provider call (anything; described by a string). *)
Inductive Thrown : Type := thrown (description : jsstring).

(** [{ data: { user, session }, error }] of signUp and signInWithPassword. *)
Record AuthData : Type :=
  { data_user : option User.t; data_session : option Session.t }.
Record AuthResponse : Type :=
  { auth_data : AuthData; auth_error : option AuthError }.

(** [{ error }] of signOut. *)
Record SignOutResponse : Type := { signout_error : option AuthError }.

(** [{ data: { session }, error }] of getSession. *)
Record SessionResponse : Type :=
  { session_data : option Session.t; session_error : option AuthError }.

(** [options.data] and [options] of a signUp call. *)
Record Metadata : Type :=
  { first_name : jsstring; last_name : jsstring; full_name : jsstring }.
Record SignUpOptions : Type :=
  { data : Metadata; emailRedirectTo : jsstring }.

(** ** Asynchronous functions

    An async function is a tree: it returns, throws, writes a React
    state cell, writes to the console, or awaits a provider call and
    continues with the way the call settled. *)

Inductive Settled (A : Type) : Type :=
| Fulfilled (v : A)
| Rejected (e : Thrown).
Arguments Rejected {A} e.

Inductive Task (S R : Type) : Type :=
| Return (r : R)
| Throw (e : Thrown)
| SetState (f : S -> S) (k : Task S R)
| ConsoleError (msg : jsstring) (e : Thrown) (k : Task S R)
| SignInWithPassword (email password : jsstring)
    (k : Settled AuthResponse -> Task S R)
| SignUp (email password : jsstring) (options : SignUpOptions)
    (k : Settled AuthResponse -> Task S R)
| SignOut (k : Settled SignOutResponse -> Task S R)
| GetSession (k : Settled SessionResponse -> Task S R).
Arguments Return {S R} r.
Arguments Throw {S R} e.
Arguments SignOut {S R} k.
Arguments GetSession {S R} k.

Fixpoint bind {S A B} (t : Task S A) (f : A -> Task S B) : Task S B :=
  match t with
  | Return a => f a
  | Throw e => Throw e
  | SetState g k => SetState g (bind k f)
  | ConsoleError m e k => ConsoleError m e (bind k f)
  | SignInWithPassword em pw k => SignInWithPassword em pw (fun o => bind (k o) f)
  | SignUp em pw op k => SignUp em pw op (fun o => bind (k o) f)
  | SignOut k => SignOut (fun o => bind (k o) f)
  | GetSession k => GetSession (fun o => bind (k o) f)
  end.

(** [try { t } catch (e) { h e }] *)
Fixpoint try_catch {S A} (t : Task S A) (h : Thrown -> Task S A) : Task S A :=
  match t with
  | Return a => Return a
  | Throw e => h e
  | SetState g k => SetState g (try_catch k h)
  | ConsoleError m e k => ConsoleError m e (try_catch k h)
  | SignInWithPassword em pw k =>
      SignInWithPassword em pw (fun o => try_catch (k o) h)
  | SignUp em pw op k => SignUp em pw op (fun o => try_catch (k o) h)
  | SignOut k => SignOut (fun o => try_catch (k o) h)
  | GetSession k => GetSession (fun o => try_catch (k o) h)
  end.

(** [await p]: the value of a fulfilled promise, a throw of a rejected one. *)
Definition awaited {S A} (o : Settled A) : Task S A :=
  match o with
  | Fulfilled v => Return v
  | Rejected e => Throw e
  end.

Declare Scope task_scope.
Delimit Scope task_scope with task.
Notation "x <- t ;; k" := (bind t (fun x => k))
  (at level 61, t at next level, right associativity) : task_scope.
Notation "t ;;; k" := (bind t (fun _ => k))
  (at level 61, right associativity) : task_scope.
Notation "'try' t 'catch' e => h" := (try_catch t (fun e => h))
  (at level 62, t at level 61, e name, h at level 61) : task_scope.
Local Open Scope task_scope.

(** The calls on [supabase.auth]. *)
Module supabase_auth.
Definition signInWithPassword {S} (email password : jsstring)
  : Task S AuthResponse := SignInWithPassword email password awaited.
Definition signUp {S} (email password : jsstring) (options : SignUpOptions)
  : Task S AuthResponse := SignUp email password options awaited.
Definition signOut {S} : Task S SignOutResponse := SignOut awaited.
Definition getSession {S} : Task S SessionResponse := GetSession awaited.
End supabase_auth.

(** ** src/database/authService.tsx *)

Module authService.
Import supabase_auth.

Record LoginResponse : Type :=
  { user : option User.t; session : option Session.t;
    error : option AuthError }.
(** The interface RegisterResponse has the same three fields. *)
Definition RegisterResponse : Type := LoginResponse.
Record LogoutResponse : Type := { logout_error : option AuthError }.

Definition UnexpectedError (msg : jsstring) : AuthError :=
  {| name := js "UnexpectedError"; message := msg |}.

(** The fixed messages; 243 is the code unit of o-acute. *)
Definition register_failed : jsstring :=
  js "Ocurri" ++ [243%N] ++ js " un error inesperado al registrar el usuario".
Definition login_failed : jsstring :=
  js "Ocurri" ++ [243%N] ++ js " un error inesperado al iniciar sesi"
    ++ [243%N] ++ js "n".
Definition logout_failed : jsstring :=
  js "Ocurri" ++ [243%N] ++ js " un error inesperado al cerrar sesi"
    ++ [243%N] ++ js "n".

(** The metadata object built by registerUser. *)
Definition metadata (firstName lastName : option jsstring) : Metadata :=
  {| first_name := or_empty firstName;
     last_name := or_empty lastName;
     full_name := trim (or_empty firstName ++ [SPACE] ++ or_empty lastName) |}.

Section WithOrigin.
(** [window.location.origin] *)
Variable origin : jsstring.

Definition registerUser {S} (email password : jsstring)
    (firstName lastName : option jsstring) : Task S RegisterResponse :=
  try
    r <- signUp email password
           {| data := metadata firstName lastName;
              emailRedirectTo := origin ++ js "/login" |} ;;
    Return {| user := data_user (auth_data r);
              session := data_session (auth_data r);
              error := auth_error r |}
  catch e =>
    ConsoleError (js "Error inesperado al registrar usuario:") e
      (Return {| user := None; session := None;
                 error := Some (UnexpectedError register_failed) |}).
End WithOrigin.

Definition loginUser {S} (email password : jsstring) : Task S LoginResponse :=
  try
    r <- signInWithPassword email password ;;
    Return {| user := data_user (auth_data r);
              session := data_session (auth_data r);
              error := auth_error r |}
  catch e =>
    ConsoleError (js "Error inesperado al iniciar sesi" ++ [243%N] ++ js "n:") e
      (Return {| user := None; session := None;
                 error := Some (UnexpectedError login_failed) |}).

Definition logoutUser {S} : Task S LogoutResponse :=
  try
    r <- signOut ;;
    Return {| logout_error := signout_error r |}
  catch e =>
    ConsoleError (js "Error inesperado al cerrar sesi" ++ [243%N] ++ js "n:") e
      (Return {| logout_error := Some (UnexpectedError logout_failed) |}).

Definition getCurrentSession {S} : Task S (option Session.t) :=
  try
    r <- getSession ;;
    match session_error r with
    | Some err =>
        ConsoleError (js "Error al obtener sesi" ++ [243%N] ++ js "n:")
          (thrown (message err)) (Return None)
    | None => Return (session_data r)
    end
  catch e =>
    ConsoleError (js "Error inesperado al obtener sesi" ++ [243%N] ++ js "n:") e
      (Return None).
End authService.

(** ** src/context/AuthContext.tsx *)

Module AuthContext.

(** The three [useState] cells of AuthProvider. *)
Record AuthState : Type :=
  { user : option User.t; session : option Session.t; isLoading : bool }.

Definition setUser (u : option User.t) (st : AuthState) : AuthState :=
  {| user := u; session := session st; isLoading := isLoading st |}.
Definition setSession (s : option Session.t) (st : AuthState) : AuthState :=
  {| user := user st; session := s; isLoading := isLoading st |}.
Definition setIsLoading (b : bool) (st : AuthState) : AuthState :=
  {| user := user st; session := session st; isLoading := b |}.

(** [useState(null)], [useState(null)], [useState(true)] *)
Definition initialState : AuthState :=
  {| user := None; session := None; isLoading := true |}.

Definition set (f : AuthState -> AuthState) : Task AuthState unit :=
  SetState f (Return tt).

(** [session?.user ?? null] *)
Definition user_of (s : option Session.t) : option User.t :=
  match s with
  | Some s' => Some (Session.user s')
  | None => None
  end.

Definition updateAuthState (s : option Session.t) : Task AuthState unit :=
  set (setSession s) ;;;
  set (setUser (user_of s)) ;;;
  set (setIsLoading false).

(** The [{ error }] object that login and register return. *)
Record ErrorResult : Type := { error : option AuthError }.

Definition login (email password : jsstring) : Task AuthState ErrorResult :=
  set (setIsLoading true) ;;;
  r <- authService.loginUser email password ;;
  set (setIsLoading false) ;;;
  Return {| error := authService.error r |}.

Section WithOrigin.
Variable origin : jsstring.

Definition register (email password : jsstring)
    (firstName lastName : option jsstring) : Task AuthState ErrorResult :=
  set (setIsLoading true) ;;;
  r <- authService.registerUser origin email password firstName lastName ;;
  set (setIsLoading false) ;;;
  Return {| error := authService.error r |}.
End WithOrigin.

Definition logout : Task AuthState unit :=
  set (setIsLoading true) ;;;
  _ <- authService.logoutUser ;;
  set (setIsLoading false) ;;;
  Return tt.

(** The state part of the context value, as a consumer reads it. *)
Record AuthContextType : Type :=
  { value_user : option User.t;
    value_session : option Session.t;
    isAuthenticated : bool;
    value_isLoading : bool }.

(** [!!user]: an object is truthy, null is not. *)
Definition truthy (u : option User.t) : bool :=
  match u with
  | Some _ => true
  | None => false
  end.

Definition value (st : AuthState) : AuthContextType :=
  {| value_user := user st;
     value_session := session st;
     isAuthenticated := truthy (user st);
     value_isLoading := isLoading st |}.

(** The callback of [getSession().then(...)] in the effect: it runs
    only when the promise is fulfilled; there is no rejection handler. *)
Definition initialFetch : Task AuthState unit :=
  r <- supabase_auth.getSession ;;
  updateAuthState (session_data r).

(** The listener given to [onAuthStateChange]. *)
Definition onAuthStateChange_listener (s : option Session.t)
  : Task AuthState unit := updateAuthState s.

End AuthContext.

(** ** The event loop around the provider component *)

(** What a consumer can call. *)
Inductive Action : Type :=
| Login (email password : jsstring)
| Register (email password : jsstring) (firstName lastName : option jsstring)
| Logout.

(** The value a promise of one of the three operations resolves with. *)
Inductive JsResult : Type :=
| Undefined
| ErrorObject (error : option AuthError).

(** Who started a pending function. *)
Inductive Origin : Type :=
| InitialFetch
| Operation (a : Action).

(** How the provider settles an outstanding call. *)
Inductive Settlement : Type :=
| SettleAuth (o : Settled AuthResponse)
| SettleSignOut (o : Settled SignOutResponse)
| SettleSession (o : Settled SessionResponse).

Inductive Event : Type :=
| Invoke (a : Action)
| Settle (i : nat) (o : Settlement)
| AuthStateChange (s : option Session.t)
| Unmount.

Record World (S : Type) : Type :=
  { store : S; console : list (jsstring * Thrown) }.

(** Run a function up to its next await, its return or its throw. *)
Fixpoint run {S R} (t : Task S R) (w : World S) : World S * Task S R :=
  match t with
  | SetState f k => run k {| store := f (store w); console := console w |}
  | ConsoleError m e k =>
      run k {| store := store w; console := console w ++ [(m, e)] |}
  | _ => (w, t)
  end.

(** Continue a suspended function with the settlement of its call. *)
Definition resume {S R} (t : Task S R) (o : Settlement) : option (Task S R) :=
  match t, o with
  | SignInWithPassword _ _ k, SettleAuth o' => Some (k o')
  | SignUp _ _ _ k, SettleAuth o' => Some (k o')
  | SignOut k, SettleSignOut o' => Some (k o')
  | GetSession k, SettleSession o' => Some (k o')
  | _, _ => None
  end.

Definition remove_nth {A} (i : nat) (l : list A) : list A :=
  firstn i l ++ skipn (S i) l.

(** The point a function is suspended at once its synchronous prefix
    has run. *)
Fixpoint residual {S R} (t : Task S R) : Task S R :=
  match t with
  | SetState _ k => residual k
  | ConsoleError _ _ k => residual k
  | _ => t
  end.

(** How the promise of a finished function has settled. *)
Definition completion {S R} (t : Task S R) : option (Settled R) :=
  match t with
  | Return r => Some (Fulfilled r)
  | Throw e => Some (Rejected e)
  | _ => None
  end.

(** A function suspended on its provider call is resumed in world [w]
    with the settlement [o] and runs to its end. *)
Definition settle_task {S R} (t : Task S R) (o : Settlement) (w : World S)
  : option (World S * Settled R) :=
  match resume (residual t) o with
  | Some t' =>
      let '(w', t'') := run t' w in
      match completion t'' with
      | Some c => Some (w', c)
      | None => None
      end
  | None => None
  end.

(** The provider call a function is waiting for, when it is a signUp. *)
Definition signUp_request {S R} (t : Task S R)
  : option (jsstring * jsstring * SignUpOptions) :=
  match residual t with
  | SignUp email password options _ => Some (email, password, options)
  | _ => None
  end.

Definition startsWithWhiteSpace (s : jsstring) : bool :=
  match s with
  | c :: _ => isWhiteSpace c
  | [] => false
  end.
Definition endsWithWhiteSpace (s : jsstring) : bool :=
  startsWithWhiteSpace (rev s).

(** An [{ error }] object, as opposed to [undefined]. *)
Definition carries_error (r : JsResult) : bool :=
  match r with
  | ErrorObject _ => true
  | Undefined => false
  end.

Record System : Type :=
  { world : World AuthContext.AuthState;
    pending : list (Origin * Task AuthContext.AuthState JsResult);
    settled : list (Origin * Settled JsResult);
    subscribed : bool;
    mounted : bool;
    unsubscribeCalls : nat }.

Definition auth (s : System) : AuthContext.AuthState := store (world s).

Section EventLoop.
(** [window.location.origin] *)
Variable origin : jsstring.

Definition invoke (a : Action) : Task AuthContext.AuthState JsResult :=
    match a with
    | Login email password =>
        r <- AuthContext.login email password ;;
        Return (ErrorObject (AuthContext.error r))
    | Register email password firstName lastName =>
        r <- AuthContext.register origin email password firstName lastName ;;
        Return (ErrorObject (AuthContext.error r))
    | Logout => AuthContext.logout ;;; Return Undefined
    end.

Definition fetchTask : Task AuthContext.AuthState JsResult :=
    AuthContext.initialFetch ;;; Return Undefined.

(** Run [t] on behalf of [org] in [s]: a finished function is recorded
      with its result, a suspended one is queued. *)
Definition advance (org : Origin) (t : Task AuthContext.AuthState JsResult)
      (s : System) (rest : list (Origin * Task AuthContext.AuthState JsResult))
    : System :=
    let '(w, t') := run t (world s) in
    match t' with
    | Return r =>
        {| world := w; pending := rest;
           settled := settled s ++ [(org, Fulfilled r)];
           subscribed := subscribed s; mounted := mounted s;
           unsubscribeCalls := unsubscribeCalls s |}
    | Throw e =>
        {| world := w; pending := rest;
           settled := settled s ++ [(org, Rejected e)];
           subscribed := subscribed s; mounted := mounted s;
           unsubscribeCalls := unsubscribeCalls s |}
    | _ =>
        {| world := w; pending := rest ++ [(org, t')];
           settled := settled s;
           subscribed := subscribed s; mounted := mounted s;
           unsubscribeCalls := unsubscribeCalls s |}
    end.

(** The effect of AuthProvider has run once: the initial fetch is
      outstanding and the listener is subscribed. *)
Definition mount : System :=
    {| world := {| store := AuthContext.initialState; console := [] |};
       pending := [(InitialFetch, fetchTask)];
       settled := [];
       subscribed := true;
       mounted := true;
       unsubscribeCalls := 0 |}.

Definition step (ev : Event) (s : System) : option System :=
    match ev with
    | Invoke a => Some (advance (Operation a) (invoke a) s (pending s))
    | Settle i o =>
        match nth_error (pending s) i with
        | Some (org, t) =>
            match resume t o with
            | Some t' => Some (advance org t' s (remove_nth i (pending s)))
            | None => None
            end
        | None => None
        end
    | AuthStateChange ses =>
        if subscribed s then
          let '(w, _) := run (AuthContext.onAuthStateChange_listener ses) (world s) in
          Some {| world := w; pending := pending s; settled := settled s;
                  subscribed := true; mounted := mounted s;
                  unsubscribeCalls := unsubscribeCalls s |}
        else Some s
    | Unmount =>
        if mounted s then
          Some {| world := world s; pending := pending s; settled := settled s;
                  subscribed := false; mounted := false;
                  unsubscribeCalls := S (unsubscribeCalls s) |}
        else None
    end.

Fixpoint exec (tr : list Event) (s : System) : option System :=
    match tr with
    | [] => Some s
    | ev :: tr' =>
        match step ev s with
        | Some s' => exec tr' s'
        | None => None
        end
    end.

Definition Reachable (s : System) : Prop :=
    exists tr, exec tr mount = Some s.

(** The initial getSession() promise has settled, fulfilled or rejected:
    initialization is over. *)
Definition is_fetch_settlement (c : Origin * Settled JsResult) : bool :=
    match c with
    | (InitialFetch, _) => true
    | _ => false
    end.
Definition fetch_settled (s : System) : bool :=
    existsb is_fetch_settlement (settled s).

(** The initial getSession() promise was rejected. *)
Definition is_fetch_rejection (c : Origin * Settled JsResult) : bool :=
    match c with
    | (InitialFetch, Rejected _) => true
    | _ => false
    end.
Definition fetch_rejected (s : System) : bool :=
    existsb is_fetch_rejection (settled s).

(** Some login, register or logout call is outstanding. *)
Definition is_operation (p : Origin * Task AuthContext.AuthState JsResult)
    : bool :=
    match p with
    | (Operation _, _) => true
    | _ => false
    end.
Definition operation_outstanding (s : System) : bool :=
    existsb is_operation (pending s).

(** The function a pending entry of [org] was started as. *)
Definition started (org : Origin) : Task AuthContext.AuthState JsResult :=
  match org with
  | InitialFetch => fetchTask
  | Operation a => invoke a
  end.

(** Every pending entry is its function at its provider call. *)
Definition well_formed (s : System) : Prop :=
  Forall (fun p => snd p = residual (started (fst p))) (pending s).

(** The settlements the provider call of an operation can have. *)
Definition settles (a : Action) (o : Settlement) : bool :=
  match a, o with
  | Login _ _, SettleAuth _ => true
  | Register _ _ _ _, SettleAuth _ => true
  | Logout, SettleSignOut _ => true
  | _, _ => false
  end.

Definition settle_operation (a : Action) (o : Settlement)
    (w : World AuthContext.AuthState)
  : option (World AuthContext.AuthState * Settled JsResult) :=
  settle_task (invoke a) o w.

(** The state a trace leads to from the mounted provider (the mounted
    provider itself when the trace cannot run). *)
Definition after (tr : list Event) : System :=
  match exec tr mount with
  | Some s => s
  | None => mount
  end.

(** The steps of [step] on well-formed systems, case by case. *)
Inductive Transition (s : System) : Event -> System -> Prop :=
| T_invoke a :
    Transition s (Invoke a)
      {| world := {| store := AuthContext.setIsLoading true (auth s);
                     console := console (world s) |};
         pending := pending s ++ [(Operation a, residual (invoke a))];
         settled := settled s;
         subscribed := subscribed s; mounted := mounted s;
         unsubscribeCalls := unsubscribeCalls s |}
| T_operation_settled i a t o r c :
    nth_error (pending s) i = Some (Operation a, t) ->
    settle_operation a o (world s)
      = Some ({| store := AuthContext.setIsLoading false (auth s);
                 console := c |}, Fulfilled r) ->
    Transition s (Settle i o)
      {| world := {| store := AuthContext.setIsLoading false (auth s);
                     console := c |};
         pending := remove_nth i (pending s);
         settled := settled s ++ [(Operation a, Fulfilled r)];
         subscribed := subscribed s; mounted := mounted s;
         unsubscribeCalls := unsubscribeCalls s |}
| T_fetch_fulfilled i t r :
    nth_error (pending s) i = Some (InitialFetch, t) ->
    Transition s (Settle i (SettleSession (Fulfilled r)))
      {| world := {| store := {| AuthContext.user := AuthContext.user_of (session_data r);
                                 AuthContext.session := session_data r;
                                 AuthContext.isLoading := false |};
                     console := console (world s) |};
         pending := remove_nth i (pending s);
         settled := settled s ++ [(InitialFetch, Fulfilled Undefined)];
         subscribed := subscribed s; mounted := mounted s;
         unsubscribeCalls := unsubscribeCalls s |}
| T_fetch_rejected i t e :
    nth_error (pending s) i = Some (InitialFetch, t) ->
    Transition s (Settle i (SettleSession (Rejected e)))
      {| world := world s;
         pending := remove_nth i (pending s);
         settled := settled s ++ [(InitialFetch, Rejected e)];
         subscribed := subscribed s; mounted := mounted s;
         unsubscribeCalls := unsubscribeCalls s |}
| T_change_delivered ses :
    subscribed s = true ->
    Transition s (AuthStateChange ses)
      {| world := {| store := {| AuthContext.user := AuthContext.user_of ses;
                                 AuthContext.session := ses;
                                 AuthContext.isLoading := false |};
                     console := console (world s) |};
         pending := pending s;
         settled := settled s;
         subscribed := true; mounted := mounted s;
         unsubscribeCalls := unsubscribeCalls s |}
| T_change_dropped ses :
    subscribed s = false ->
    Transition s (AuthStateChange ses) s
| T_unmount :
    mounted s = true ->
    Transition s Unmount
      {| world := world s; pending := pending s; settled := settled s;
         subscribed := false; mounted := false;
         unsubscribeCalls := S (unsubscribeCalls s) |}.

(** What holds of every reachable system. *)
Record Invariant (s : System) : Prop :=
  { inv_well_formed : well_formed s;
    inv_user : AuthContext.user (auth s)
               = AuthContext.user_of (AuthContext.session (auth s));
    inv_loading : AuthContext.isLoading (auth s) = true ->
                  fetch_settled s = false \/ fetch_rejected s = true
                  \/ operation_outstanding s = true;
    inv_subscription :
      if mounted s
      then subscribed s = true /\ unsubscribeCalls s = 0
      else subscribed s = false /\ unsubscribeCalls s = 1 }.

End EventLoop.

(** ** Sample data *)

Definition sample_origin : jsstring := js "https://creacionesjl.example".
Definition sample_user : User.t :=
  {| User.id := js "u-1"; User.email := js "a@b.com" |}.
Definition sample_session : Session.t :=
  {| Session.access_token := js "token-1"; Session.user := sample_user |}.
Definition other_session : Session.t :=
  {| Session.access_token := js "token-2"; Session.user := sample_user |}.
Definition sample_error : AuthError :=
  {| name := js "AuthApiError"; message := js "Invalid login credentials" |}.
Definition sample_thrown : Thrown := thrown (js "Failed to fetch").
Definition sample_world : World AuthContext.AuthState :=
  {| store := AuthContext.initialState; console := [] |}.

Definition ok_response : AuthResponse :=
  {| auth_data := {| data_user := Some sample_user;
                     data_session := Some sample_session |};
     auth_error := None |}.
Definition no_session : SessionResponse :=
  {| session_data := None; session_error := None |}.

(** The initial fetch finds no session. *)
Definition ready_trace : list Event :=
  [Settle 0 (SettleSession (Fulfilled no_session))].
(** Then a consumer calls login, and signInWithPassword is outstanding. *)
Definition login_pending_trace : list Event :=
  ready_trace ++ [Invoke (Login (js "a@b.com") (js "secret"))].
(** Then the provider announces the session and answers the call. *)
Definition logged_in_trace : list Event :=
  login_pending_trace
    ++ [AuthStateChange (Some sample_session);
        Settle 0 (SettleAuth (Fulfilled ok_response))].

Definition ready : System := after sample_origin ready_trace.
Definition login_pending : System := after sample_origin login_pending_trace.
Definition logged_in : System := after sample_origin logged_in_trace.

(** * The rest of the application *)

(** ** More of JavaScript's strings *)

(** A literal with non-ASCII letters: its UTF-8 bytes decoded to UTF-16
    code units (one, two and three byte sequences). *)
Fixpoint utf8_units (bytes : list N) : jsstring :=
  match bytes with
  | [] => []
  | b1 :: rest =>
      if (b1 <? 128)%N then b1 :: utf8_units rest
      else if (b1 <? 224)%N then
        match rest with
        | b2 :: rest' => ((b1 - 192) * 64 + (b2 - 128))%N :: utf8_units rest'
        | [] => []
        end
      else
        match rest with
        | b2 :: b3 :: rest' =>
            ((b1 - 224) * 4096 + (b2 - 128) * 64 + (b3 - 128))%N
              :: utf8_units rest'
        | _ => []
        end
  end.
Definition utf8 (s : string) : jsstring :=
  utf8_units (map N_of_ascii (list_ascii_of_string s)).

Fixpoint jsstring_eqb (a b : jsstring) : bool :=
  match a, b with
  | [], [] => true
  | x :: a', y :: b' => (x =? y)%N && jsstring_eqb a' b'
  | _, _ => false
  end.

(** [s.startsWith(prefix)] *)
Fixpoint startsWith (prefix s : jsstring) : bool :=
  match prefix, s with
  | [], _ => true
  | x :: prefix', y :: s' => (x =? y)%N && startsWith prefix' s'
  | _ :: _, [] => false
  end.

(** [s.includes(needle)] *)
Fixpoint includes (needle s : jsstring) : bool :=
  startsWith needle s
  || match s with
     | [] => false
     | _ :: s' => includes needle s'
     end.

(** [!s] for a string: only the empty string is falsy. *)
Definition falsy (s : jsstring) : bool :=
  match s with
  | [] => true
  | _ :: _ => false
  end.

(** [a || b] for strings. *)
Definition or_else (a b : jsstring) : jsstring :=
  if falsy a then b else a.

(** [parts.join(sep)] *)
Fixpoint join (sep : jsstring) (parts : list jsstring) : jsstring :=
  match parts with
  | [] => []
  | [p] => p
  | p :: rest => p ++ sep ++ join sep rest
  end.

(** ** Regular expressions

    The constructs the one RegExp of the code uses, matched by
    derivatives. *)

Inductive Regex : Type :=
| Void
| Eps
| Class (p : N -> bool)
| Seq (r1 r2 : Regex)
| Alt (r1 r2 : Regex)
| Star (r : Regex).

(** [r+] *)
Definition Plus (r : Regex) : Regex := Seq r (Star r).

(** [r{n}] and [r{0,n}] *)
Fixpoint Exactly (n : nat) (r : Regex) : Regex :=
  match n with
  | O => Eps
  | S n' => Seq r (Exactly n' r)
  end.
Fixpoint UpTo (n : nat) (r : Regex) : Regex :=
  match n with
  | O => Eps
  | S n' => Alt Eps (Seq r (UpTo n' r))
  end.
(** [r{lo,hi}] *)
Definition Between (lo hi : nat) (r : Regex) : Regex :=
  Seq (Exactly lo r) (UpTo (hi - lo) r).

Fixpoint nullable (r : Regex) : bool :=
  match r with
  | Void => false
  | Eps => true
  | Class _ => false
  | Seq r1 r2 => nullable r1 && nullable r2
  | Alt r1 r2 => nullable r1 || nullable r2
  | Star _ => true
  end.

Fixpoint deriv (c : N) (r : Regex) : Regex :=
  match r with
  | Void => Void
  | Eps => Void
  | Class p => if p c then Eps else Void
  | Seq r1 r2 =>
      if nullable r1
      then Alt (Seq (deriv c r1) r2) (deriv c r2)
      else Seq (deriv c r1) r2
  | Alt r1 r2 => Alt (deriv c r1) (deriv c r2)
  | Star r1 => Seq (deriv c r1) (Star r1)
  end.

(** [/^r$/.test(s)] *)
Fixpoint regex_test (r : Regex) (s : jsstring) : bool :=
  match s with
  | [] => nullable r
  | c :: s' => regex_test (deriv c r) s'
  end.

(** The strings a regular expression stands for. *)
Inductive Matches : Regex -> jsstring -> Prop :=
| M_eps : Matches Eps []
| M_class p c : p c = true -> Matches (Class p) [c]
| M_seq r1 r2 s1 s2 :
    Matches r1 s1 -> Matches r2 s2 -> Matches (Seq r1 r2) (s1 ++ s2)
| M_alt_l r1 r2 s : Matches r1 s -> Matches (Alt r1 r2) s
| M_alt_r r1 r2 s : Matches r2 s -> Matches (Alt r1 r2) s
| M_star_nil r : Matches (Star r) []
| M_star_more r s1 s2 :
    Matches r s1 -> Matches (Star r) s2 -> Matches (Star r) (s1 ++ s2).

Definition HYPHEN : N := 45.
Definition DOT : N := 46.
Definition AT : N := 64.

(** [\w] without the unicode flag: [A-Za-z0-9_] *)
Definition isWord (c : N) : bool :=
  (((48 <=? c) && (c <=? 57)) || ((65 <=? c) && (c <=? 90))
   || (c =? 95) || ((97 <=? c) && (c <=? 122)))%N.
(** [[\w-]] *)
Definition isWordOrHyphen (c : N) : bool := isWord c || (c =? HYPHEN)%N.
(** [[\w-\.]] *)
Definition isLocalChar (c : N) : bool :=
  isWord c || (c =? HYPHEN)%N || (c =? DOT)%N.

(** The text after the last dot of [s] (all of [s] when it has none). *)
Fixpoint untilDot (s : jsstring) : jsstring :=
  match s with
  | [] => []
  | c :: s' => if (c =? DOT)%N then [] else c :: untilDot s'
  end.
Definition lastLabel (s : jsstring) : jsstring := rev (untilDot (rev s)).

(** ** Functions of a page that call into the provider component *)

(** A function written against state [S], run inside a larger state [T]. *)
Fixpoint lift {S T R} (up : (S -> S) -> T -> T) (t : Task S R) : Task T R :=
  match t with
  | Return r => Return r
  | Throw e => Throw e
  | SetState g k => SetState (up g) (lift up k)
  | ConsoleError m e k => ConsoleError m e (lift up k)
  | SignInWithPassword em pw k =>
      SignInWithPassword em pw (fun o => lift up (k o))
  | SignUp em pw op k => SignUp em pw op (fun o => lift up (k o))
  | SignOut k => SignOut (fun o => lift up (k o))
  | GetSession k => GetSession (fun o => lift up (k o))
  end.

(** [try { t } finally { fin }] *)
Fixpoint try_finally {S A} (t : Task S A) (fin : Task S unit) : Task S A :=
  match t with
  | Return a => fin ;;; Return a
  | Throw e => fin ;;; Throw e
  | SetState g k => SetState g (try_finally k fin)
  | ConsoleError m e k => ConsoleError m e (try_finally k fin)
  | SignInWithPassword em pw k =>
      SignInWithPassword em pw (fun o => try_finally (k o) fin)
  | SignUp em pw op k => SignUp em pw op (fun o => try_finally (k o) fin)
  | SignOut k => SignOut (fun o => try_finally (k o) fin)
  | GetSession k => GetSession (fun o => try_finally (k o) fin)
  end.

(** A form component under AuthProvider and the router: its own state
    cells, the cells of AuthProvider, and the paths given to [navigate]. *)
Record Page (F : Type) : Type :=
  { form : F;
    provider : AuthContext.AuthState;
    navigations : list jsstring }.

Definition onForm {F} (g : F -> F) (p : Page F) : Page F :=
  {| form := g (form p); provider := provider p;
     navigations := navigations p |}.
Definition onProvider {F} (g : AuthContext.AuthState -> AuthContext.AuthState)
    (p : Page F) : Page F :=
  {| form := form p; provider := g (provider p);
     navigations := navigations p |}.
Definition setForm {F} (g : F -> F) : Task (Page F) unit :=
  SetState (onForm g) (Return tt).
(** [navigate(path)] *)
Definition navigate {F} (path : jsstring) : Task (Page F) unit :=
  SetState (fun p => {| form := form p; provider := provider p;
                        navigations := navigations p ++ [path] |})
    (Return tt).

(** ** src/components/RegisterForm/RegisterForm.tsx *)

Module RegisterForm.

Module Errors.
Record t : Type :=
  { email : jsstring; password : jsstring; confirmPassword : jsstring;
    general : jsstring }.
End Errors.

(** [{m && <p className="error-message">{m}</p>}] *)
Definition errorParagraph (m : jsstring) : list jsstring :=
  if falsy m then [] else [m].

(** The error paragraphs of the rendered form, in their order: the JSX
    has one for errors.email, errors.confirmPassword and errors.general,
    and none for errors.password. *)
Definition errorParagraphs (e : Errors.t) : list jsstring :=
  errorParagraph (Errors.email e)
  ++ errorParagraph (Errors.confirmPassword e)
  ++ errorParagraph (Errors.general e).

(** The object [newErrors] of handleSubmit. *)
Module NewErrors.
Record t : Type :=
  { email : jsstring; password : jsstring; confirmPassword : jsstring }.
Definition with_email (m : jsstring) (e : t) : t :=
  {| email := m; password := password e;
     confirmPassword := confirmPassword e |}.
Definition with_password (m : jsstring) (e : t) : t :=
  {| email := email e; password := m;
     confirmPassword := confirmPassword e |}.
Definition with_confirmPassword (m : jsstring) (e : t) : t :=
  {| email := email e; password := password e; confirmPassword := m |}.
End NewErrors.

(** [{ ...newErrors, general }] *)
Definition spread (e : NewErrors.t) (general : jsstring) : Errors.t :=
  {| Errors.email := NewErrors.email e;
     Errors.password := NewErrors.password e;
     Errors.confirmPassword := NewErrors.confirmPassword e;
     Errors.general := general |}.

Record State : Type :=
  { firstName : jsstring; lastName : jsstring; email : jsstring;
    password : jsstring; confirmPassword : jsstring; phone : jsstring;
    address : jsstring; addressdetails : jsstring;
    isSubmitting : bool; errors : Errors.t }.

Definition initialState : State :=
  {| firstName := []; lastName := []; email := []; password := [];
     confirmPassword := []; phone := []; address := []; addressdetails := [];
     isSubmitting := false;
     errors := {| Errors.email := []; Errors.password := [];
                  Errors.confirmPassword := []; Errors.general := [] |} |}.

Definition with_firstName (v : jsstring) (s : State) : State :=
  {| firstName := v;
     lastName := lastName s;
     email := email s;
     password := password s;
     confirmPassword := confirmPassword s;
     phone := phone s;
     address := address s;
     addressdetails := addressdetails s;
     isSubmitting := isSubmitting s;
     errors := errors s |}.
Definition with_lastName (v : jsstring) (s : State) : State :=
  {| firstName := firstName s;
     lastName := v;
     email := email s;
     password := password s;
     confirmPassword := confirmPassword s;
     phone := phone s;
     address := address s;
     addressdetails := addressdetails s;
     isSubmitting := isSubmitting s;
     errors := errors s |}.
Definition with_email (v : jsstring) (s : State) : State :=
  {| firstName := firstName s;
     lastName := lastName s;
     email := v;
     password := password s;
     confirmPassword := confirmPassword s;
     phone := phone s;
     address := address s;
     addressdetails := addressdetails s;
     isSubmitting := isSubmitting s;
     errors := errors s |}.
Definition with_password (v : jsstring) (s : State) : State :=
  {| firstName := firstName s;
     lastName := lastName s;
     email := email s;
     password := v;
     confirmPassword := confirmPassword s;
     phone := phone s;
     address := address s;
     addressdetails := addressdetails s;
     isSubmitting := isSubmitting s;
     errors := errors s |}.
Definition with_confirmPassword (v : jsstring) (s : State) : State :=
  {| firstName := firstName s;
     lastName := lastName s;
     email := email s;
     password := password s;
     confirmPassword := v;
     phone := phone s;
     address := address s;
     addressdetails := addressdetails s;
     isSubmitting := isSubmitting s;
     errors := errors s |}.
Definition with_phone (v : jsstring) (s : State) : State :=
  {| firstName := firstName s;
     lastName := lastName s;
     email := email s;
     password := password s;
     confirmPassword := confirmPassword s;
     phone := v;
     address := address s;
     addressdetails := addressdetails s;
     isSubmitting := isSubmitting s;
     errors := errors s |}.
Definition with_address (v : jsstring) (s : State) : State :=
  {| firstName := firstName s;
     lastName := lastName s;
     email := email s;
     password := password s;
     confirmPassword := confirmPassword s;
     phone := phone s;
     address := v;
     addressdetails := addressdetails s;
     isSubmitting := isSubmitting s;
     errors := errors s |}.
Definition with_addressdetails (v : jsstring) (s : State) : State :=
  {| firstName := firstName s;
     lastName := lastName s;
     email := email s;
     password := password s;
     confirmPassword := confirmPassword s;
     phone := phone s;
     address := address s;
     addressdetails := v;
     isSubmitting := isSubmitting s;
     errors := errors s |}.
Definition with_isSubmitting (v : bool) (s : State) : State :=
  {| firstName := firstName s;
     lastName := lastName s;
     email := email s;
     password := password s;
     confirmPassword := confirmPassword s;
     phone := phone s;
     address := address s;
     addressdetails := addressdetails s;
     isSubmitting := v;
     errors := errors s |}.
Definition with_errors (v : Errors.t) (s : State) : State :=
  {| firstName := firstName s;
     lastName := lastName s;
     email := email s;
     password := password s;
     confirmPassword := confirmPassword s;
     phone := phone s;
     address := address s;
     addressdetails := addressdetails s;
     isSubmitting := isSubmitting s;
     errors := v |}.

Definition setFirstName (v : jsstring) : Task (Page State) unit :=
  setForm (with_firstName v).
Definition setLastName (v : jsstring) : Task (Page State) unit :=
  setForm (with_lastName v).
Definition setEmail (v : jsstring) : Task (Page State) unit :=
  setForm (with_email v).
Definition setPassword (v : jsstring) : Task (Page State) unit :=
  setForm (with_password v).
Definition setConfirmPassword (v : jsstring) : Task (Page State) unit :=
  setForm (with_confirmPassword v).
Definition setPhone (v : jsstring) : Task (Page State) unit :=
  setForm (with_phone v).
Definition setAddress (v : jsstring) : Task (Page State) unit :=
  setForm (with_address v).
Definition setAddressdetails (v : jsstring) : Task (Page State) unit :=
  setForm (with_addressdetails v).
Definition setIsSubmitting (v : bool) : Task (Page State) unit :=
  setForm (with_isSubmitting v).
Definition setErrors (v : Errors.t) : Task (Page State) unit :=
  setForm (with_errors v).

(** [/^[\w-\.]+@([\w-]+\.)+[\w-]{2,4}$/] *)
Definition emailRegex : Regex :=
  Seq (Plus (Class isLocalChar))
    (Seq (Class (N.eqb AT))
       (Seq (Plus (Seq (Plus (Class isWordOrHyphen)) (Class (N.eqb DOT))))
          (Between 2 4 (Class isWordOrHyphen)))).

Definition validateEmail (email : jsstring) : bool :=
  regex_test emailRegex email.

(** The checks of handleSubmit, in their order: the final [newErrors]
    and [isValid]. *)
Definition validation (f : State) : NewErrors.t * bool :=
  let newErrors :=
    {| NewErrors.email := []; NewErrors.password := [];
       NewErrors.confirmPassword := [] |} in
  let isValid := true in
  let '(newErrors, isValid) :=
    if falsy (email f)
    then (NewErrors.with_email
            (utf8 "El correo electrónico es obligatorio.") newErrors, false)
    else (newErrors, isValid) in
  let '(newErrors, isValid) :=
    if falsy (password f)
    then (NewErrors.with_password
            (utf8 "La contraseña es obligatoria.") newErrors, false)
    else (newErrors, isValid) in
  let '(newErrors, isValid) :=
    if falsy (confirmPassword f)
    then (NewErrors.with_confirmPassword
            (utf8 "Repetir contraseña es obligatorio.") newErrors, false)
    else (newErrors, isValid) in
  let '(newErrors, isValid) :=
    if negb (falsy (email f)) && negb (validateEmail (email f))
    then (NewErrors.with_email
            (utf8 "El formato del correo electrónico no es válido.") newErrors,
          false)
    else (newErrors, isValid) in
  let '(newErrors, isValid) :=
    if negb (falsy (password f)) && negb (falsy (confirmPassword f))
       && negb (jsstring_eqb (password f) (confirmPassword f))
    then (NewErrors.with_confirmPassword
            (utf8 "Las contraseñas no coinciden.") newErrors, false)
    else (newErrors, isValid) in
  (newErrors, isValid).

Section WithOrigin.
Variable origin : jsstring.

(** handleSubmit as created by a render with state [f]; its call of
    [e.preventDefault()] concerns the DOM event only. *)
Definition handleSubmit (f : State) : Task (Page State) unit :=
  let '(newErrors, isValid) := validation f in
  setErrors (spread newErrors []) ;;;
  if isValid then
    setIsSubmitting true ;;;
    setErrors (spread newErrors []) ;;;
    try_finally
      (try
         r <- lift onProvider
                (AuthContext.register origin (email f) (password f)
                   (Some (firstName f)) (Some (lastName f))) ;;
         match AuthContext.error r with
         | Some error =>
             if includes (js "already registered") (message error) then
               setErrors
                 (spread
                    (NewErrors.with_email
                       (utf8 "Este correo electrónico ya está registrado.")
                       newErrors) [])
             else if includes (js "Password") (message error) then
               setErrors
                 (spread
                    (NewErrors.with_password
                       (utf8 "La contraseña debe tener al menos 6 caracteres.")
                       newErrors) [])
             else
               setErrors
                 (spread newErrors
                    (or_else (message error)
                       (js "Error al registrar. Por favor, intenta de nuevo.")))
         | None =>
             setFirstName [] ;;;
             setLastName [] ;;;
             setEmail [] ;;;
             setPassword [] ;;;
             setConfirmPassword [] ;;;
             setPhone [] ;;;
             setAddress [] ;;;
             setAddressdetails [] ;;;
             navigate (js "/login")
         end
       catch error =>
         ConsoleError (js "Error al registrar:") error
           (setErrors
              (spread newErrors
                 (utf8 "Ocurrió un error inesperado. Por favor, intenta de nuevo."))))
      (setIsSubmitting false)
  else Return tt.
End WithOrigin.

End RegisterForm.

(** ** src/components/LoginForm/LoginForm.draft.tsx: the form that
    calls [login] of the context *)

Module LoginForm.

Record State : Type :=
  { email : jsstring; password : jsstring; isSubmitting : bool;
    error : jsstring }.

Definition initialState : State :=
  {| email := []; password := []; isSubmitting := false; error := [] |}.

Definition with_isSubmitting (v : bool) (s : State) : State :=
  {| email := email s; password := password s; isSubmitting := v;
     error := error s |}.
Definition with_error (v : jsstring) (s : State) : State :=
  {| email := email s; password := password s;
     isSubmitting := isSubmitting s; error := v |}.

Definition setIsSubmitting (v : bool) : Task (Page State) unit :=
  setForm (with_isSubmitting v).
Definition setError (v : jsstring) : Task (Page State) unit :=
  setForm (with_error v).

(** handleLogin as created by a render with state [f]; the early
    [return] is the first branch. *)
Definition handleLogin (f : State) : Task (Page State) unit :=
  setError [] ;;;
  if falsy (email f) || falsy (password f) then
    setError (js "Por favor, completa todos los campos.")
  else
    setIsSubmitting true ;;;
    try_finally
      (try
         r <- lift onProvider (AuthContext.login (email f) (password f)) ;;
         match AuthContext.error r with
         | Some loginError =>
             if includes (js "Invalid login credentials") (message loginError)
             then
               setError (utf8 "Correo electrónico o contraseña incorrectos.")
             else if includes (js "Email not confirmed") (message loginError)
             then
               setError
                 (utf8 "Por favor, verifica tu correo electrónico antes de iniciar sesión.")
             else
               setError
                 (or_else (message loginError)
                    (utf8 "Error al iniciar sesión. Por favor, intenta de nuevo."))
         | None => navigate (js "/")
         end
       catch error =>
         ConsoleError (utf8 "Error al iniciar sesión:") error
           (setError
              (utf8 "Ocurrió un error inesperado. Por favor, intenta de nuevo.")))
      (setIsSubmitting false).

End LoginForm.

(** ** useAuth, and src/components/ProtectedRoute/ProtectedRoute.tsx *)

Module Routes.

(** [useContext(AuthContext)] gives undefined outside an AuthProvider;
    useAuth then throws. *)
Definition useAuth (context : option AuthContext.AuthContextType)
  : Thrown + AuthContext.AuthContextType :=
  match context with
  | None =>
      inl (thrown
             (utf8 "❌ useAuth debe ser usado dentro de un AuthProvider. "
              ++ utf8 "Asegúrate de envolver tu aplicación con <AuthProvider>"))
  | Some c => inr c
  end.

(** What a route component returns. *)
Inductive Output : Type :=
| Cargando
| Null
| Children.

(** One render: the output, and the path with which the render body
    calls [navigate], if it calls it.  What the router does with a call
    made while rendering is not part of this. *)
Record Render : Type :=
  { output : Output; navigateCall : option jsstring }.

Definition ProtectedRoute (context : option AuthContext.AuthContextType)
  : Thrown + Render :=
  match useAuth context with
  | inl e => inl e
  | inr c =>
      inr (if AuthContext.value_isLoading c
           then {| output := Cargando; navigateCall := None |}
           else if negb (AuthContext.isAuthenticated c)
           then {| output := Null; navigateCall := Some (js "/login") |}
           else {| output := Children; navigateCall := None |})
  end.

Definition PublicRoute (context : option AuthContext.AuthContextType)
  : Thrown + Render :=
  match useAuth context with
  | inl e => inl e
  | inr c =>
      inr (if AuthContext.value_isLoading c
           then {| output := Cargando; navigateCall := None |}
           else if AuthContext.isAuthenticated c
           then {| output := Null; navigateCall := Some (js "/") |}
           else {| output := Children; navigateCall := None |})
  end.

End Routes.

(** ** src/components/Button/Button.tsx *)

Module Button.

Inductive ButtonVariant : Type := primary | secondary | tertiary.
Inductive ButtonSize : Type := small | medium | large.
Inductive ButtonType : Type := button | submit | reset.

Definition variant_string (v : ButtonVariant) : jsstring :=
  match v with
  | primary => js "primary"
  | secondary => js "secondary"
  | tertiary => js "tertiary"
  end.
Definition size_string (s : ButtonSize) : jsstring :=
  match s with
  | small => js "small"
  | medium => js "medium"
  | large => js "large"
  end.

(** The props other than children and onClick; an omitted prop is None. *)
Record ButtonProps : Type :=
  { variant : option ButtonVariant;
    size : option ButtonSize;
    to : option jsstring;
    href : option jsstring;
    type : option ButtonType;
    disabled : option bool;
    className : option jsstring;
    fullWidth : option bool }.

(** A default of the parameter list: it stands in for undefined only. *)
Definition defaulted {A} (d : A) (v : option A) : A :=
  match v with
  | Some a => a
  | None => d
  end.

(** Truthiness of an optional string. *)
Definition given (s : option jsstring) : bool :=
  match s with
  | Some (_ :: _) => true
  | _ => false
  end.

Inductive Element : Type :=
| LinkElement (to : jsstring) (className : jsstring)
| AnchorElement (href : jsstring) (className : jsstring)
| ButtonElement (type : ButtonType) (disabled : bool) (className : jsstring).

Definition classes (p : ButtonProps) : jsstring :=
  join [SPACE]
    (filter (fun c => negb (falsy c))
       [ js "btn";
         js "btn-" ++ variant_string (defaulted primary (variant p));
         js "btn-" ++ size_string (defaulted medium (size p));
         if defaulted false (fullWidth p) then js "btn-full-width" else [];
         defaulted [] (className p) ]).

Definition Button (p : ButtonProps) : Element :=
  if given (to p) && negb (defaulted false (disabled p))
  then LinkElement (defaulted [] (to p)) (classes p)
  else if given (href p) && negb (defaulted false (disabled p))
  then AnchorElement (defaulted [] (href p)) (classes p)
  else ButtonElement (defaulted button (type p))
         (defaulted false (disabled p)) (classes p).

End Button.

(** ** The carousel of the Home component (src/unnamed/part_000) *)

Module Home.

Definition images : list jsstring :=
  [ js "/shirt%201.jpeg"; js "/shirt%202.jpeg";
    js "/shirt%203.jpeg"; js "/shirt%204.jpeg" ].

(** The updater given to setCurrentImageIndex by the interval. *)
Definition nextIndex (prevIndex : nat) : nat :=
  (prevIndex + 1) mod List.length images.

(** The index after [n] runs of the interval's callback, from
    [useState(0)]. *)
Fixpoint indexAfter (n : nat) : nat :=
  match n with
  | O => 0
  | S n' => nextIndex (indexAfter n')
  end.

(** Which of the background images carry the class [active]. *)
Definition active (currentImageIndex : nat) : list bool :=
  map (fun index => index =? currentImageIndex) (seq 0 (List.length images)).

End Home.

(** The labels of a domain, each followed by its dot. *)
Definition dotted (labels : list jsstring) : jsstring :=
  List.concat (map (fun l => l ++ [DOT]) labels).

(** A non-empty run of [[\w-]]. *)
Definition label_ok (l : jsstring) : Prop :=
  l <> [] /\ forallb isWordOrHyphen l = true.

Definition sample_form : RegisterForm.State :=
  {| RegisterForm.firstName := js "Ana";
     RegisterForm.lastName := js "Diaz";
     RegisterForm.email := js "ana@example.com";
     RegisterForm.password := js "secret1";
     RegisterForm.confirmPassword := js "secret1";
     RegisterForm.phone := js "3001234567";
     RegisterForm.address := js "Calle 1";
     RegisterForm.addressdetails := [];
     RegisterForm.isSubmitting := false;
     RegisterForm.errors := RegisterForm.errors RegisterForm.initialState |}.

Definition sample_login_form : LoginForm.State :=
  {| LoginForm.email := js "a@b.com"; LoginForm.password := js "secret";
     LoginForm.isSubmitting := false; LoginForm.error := [] |}.

Definition no_errors : RegisterForm.Errors.t :=
  {| RegisterForm.Errors.email := []; RegisterForm.Errors.password := [];
     RegisterForm.Errors.confirmPassword := [];
     RegisterForm.Errors.general := [] |}.

(** The provider call a function is waiting for, when it is a
    signInWithPassword. *)
Definition signIn_request {S R} (t : Task S R)
  : option (jsstring * jsstring) :=
  match residual t with
  | SignInWithPassword email password _ => Some (email, password)
  | _ => None
  end.

Definition sample_page : World (Page RegisterForm.State) :=
  {| store := {| form := RegisterForm.with_isSubmitting true sample_form;
                 provider := AuthContext.setIsLoading true
                               {| AuthContext.user := None;
                                  AuthContext.session := None;
                                  AuthContext.isLoading := false |};
                 navigations := [] |};
     console := [] |}.

Definition sample_login_page : World (Page LoginForm.State) :=
  {| store := {| form := LoginForm.with_isSubmitting true sample_login_form;
                 provider := AuthContext.setIsLoading true
                               {| AuthContext.user := None;
                                  AuthContext.session := None;
                                  AuthContext.isLoading := false |};
                 navigations := [] |};
     console := [] |}.

Definition session_found : SessionResponse :=
  {| session_data := Some sample_session; session_error := None |}.

(** ** The provider calls of getCurrentUser and resetPassword

    These two functions make one provider call each and write no state:
    they are run against a provider given as a function from the request
    to the way it settles. *)

(** [{ data: { user }, error }] of getUser. *)
Record UserResponse : Type :=
  { user_data : option User.t; user_error : option AuthError }.

(** [{ error }] of resetPasswordForEmail. *)
Record ResetResponse : Type := { reset_error : option AuthError }.

Inductive Request : Type :=
| GetUser
| ResetPasswordForEmail (email : jsstring) (redirectTo : jsstring).

Definition Response (q : Request) : Type :=
  match q with
  | GetUser => UserResponse
  | ResetPasswordForEmail _ _ => ResetResponse
  end.

Inductive Call (R : Type) : Type :=
| Returned (r : R)
| Thrown_ (e : Thrown)
| Logged (msg : jsstring) (e : Thrown) (k : Call R)
| Awaited (q : Request) (k : Settled (Response q) -> Call R).
Arguments Returned {R} r.
Arguments Thrown_ {R} e.

Fixpoint call_bind {A B} (t : Call A) (f : A -> Call B) : Call B :=
  match t with
  | Returned a => f a
  | Thrown_ e => Thrown_ e
  | Logged m e k => Logged m e (call_bind k f)
  | Awaited q k => Awaited q (fun o => call_bind (k o) f)
  end.

Fixpoint call_try_catch {A} (t : Call A) (h : Thrown -> Call A) : Call A :=
  match t with
  | Returned a => Returned a
  | Thrown_ e => h e
  | Logged m e k => Logged m e (call_try_catch k h)
  | Awaited q k => Awaited q (fun o => call_try_catch (k o) h)
  end.

(** [await supabase.auth.<request>] *)
Definition request (q : Request) : Call (Response q) :=
  Awaited q (fun o => match o with
                      | Fulfilled v => Returned v
                      | Rejected e => Thrown_ e
                      end).

(** The console lines and the settlement of a call's promise, against a
    provider. *)
Fixpoint call_result {R} (provider : forall q, Settled (Response q))
    (t : Call R) : list (jsstring * Thrown) * Settled R :=
  match t with
  | Returned r => ([], Fulfilled r)
  | Thrown_ e => ([], Rejected e)
  | Logged m e k =>
      let '(log, c) := call_result provider k in ((m, e) :: log, c)
  | Awaited q k => call_result provider (k (provider q))
  end.

Module authService_rest.

Definition getCurrentUser : Call (option User.t) :=
  call_try_catch
    (call_bind (request GetUser) (fun r =>
       match user_error r with
       | Some err =>
           Logged (js "Error al obtener usuario:") (thrown (message err))
             (Returned None)
       | None => Returned (user_data r)
       end))
    (fun e =>
       Logged (js "Error inesperado al obtener usuario:") e (Returned None)).

Definition reset_failed : jsstring :=
  utf8 "Ocurrió un error inesperado al resetear la contraseña".

(** resetPassword resolves with [{ error }], the object type that
    logoutUser resolves with. *)
Definition resetPassword (origin email : jsstring)
  : Call authService.LogoutResponse :=
  call_try_catch
    (call_bind
       (request (ResetPasswordForEmail email (origin ++ js "/reset-password")))
       (fun r => Returned {| authService.logout_error := reset_error r |}))
    (fun e =>
       Logged (utf8 "Error inesperado al resetear contraseña:") e
         (Returned
            {| authService.logout_error :=
                 Some (authService.UnexpectedError reset_failed) |})).

End authService_rest.

Unset Implicit Arguments.

(** * Properties *)

(** ** Lists *)

Lemma remove_nth_split A (l : list A) i x :
  nth_error l i = Some x ->
  exists l1 l2, l = l1 ++ x :: l2 /\ remove_nth i l = l1 ++ l2.
Proof.
  revert l; induction i as [|i IH]; intros [|y l] H; simpl in H; try discriminate.
  - inversion H; subst. exists [], l. split; reflexivity.
  - destruct (IH l H) as (l1 & l2 & E1 & E2).
    exists (y :: l1), l2. split.
    + simpl. now rewrite <- E1.
    + change (remove_nth (S i) (y :: l)) with (y :: remove_nth i l).
      now rewrite E2.
Qed.

Lemma remove_nth_last A (l : list A) x :
  nth_error (l ++ [x]) (List.length l) = Some x
  /\ remove_nth (List.length l) (l ++ [x]) = l.
Proof.
  induction l as [|y l [IH1 IH2]]; simpl.
  - split; reflexivity.
  - split; [exact IH1|].
    change (remove_nth (S (List.length l)) (y :: l ++ [x]))
      with (y :: remove_nth (List.length l) (l ++ [x])).
    now rewrite IH2.
Qed.

Lemma Forall_remove_nth A (P : A -> Prop) (l : list A) i :
  Forall P l -> Forall P (remove_nth i l).
Proof.
  intros H. revert i. induction H as [|x l Hx Hl IH]; intros i.
  - unfold remove_nth. rewrite firstn_nil, skipn_nil. constructor.
  - destruct i as [|i].
    + exact Hl.
    + change (remove_nth (S i) (x :: l)) with (x :: remove_nth i l).
      constructor; auto.
Qed.

Lemma existsb_remove_nth A (f : A -> bool) (l : list A) i x :
  nth_error l i = Some x -> f x = false ->
  existsb f (remove_nth i l) = existsb f l.
Proof.
  intros H Hx. destruct (remove_nth_split _ l i x H) as (l1 & l2 & -> & ->).
  rewrite !existsb_app. simpl. now rewrite Hx.
Qed.

(** ** Running functions *)

Lemma run_residual S R (t : Task S R) (w : World S) :
  snd (run t w) = residual t.
Proof.
  revert w. induction t; intros w; simpl; auto.
Qed.

Lemma run_updateAuthState ses (w : World AuthContext.AuthState) :
  run (AuthContext.updateAuthState ses) w
  = ({| store := {| AuthContext.user := AuthContext.user_of ses;
                    AuthContext.session := ses;
                    AuthContext.isLoading := false |};
        console := console w |}, Return tt).
Proof. reflexivity. Qed.

Section EventLoopFacts.
Variable origin : jsstring.

Lemma invoke_run a (w : World AuthContext.AuthState) :
  run (invoke origin a) w
  = ({| store := AuthContext.setIsLoading true (store w);
        console := console w |}, residual (invoke origin a)).
Proof. destruct a; reflexivity. Qed.

Lemma invoke_suspends a : completion (residual (invoke origin a)) = None.
Proof. destruct a; reflexivity. Qed.

(** An operation resumed with any settlement of its call writes
    isLoading only and returns. *)
Lemma resume_operation a o t' :
  resume (residual (invoke origin a)) o = Some t' ->
  settles a o = true /\
  forall w, exists c r,
    run t' w = ({| store := AuthContext.setIsLoading false (store w);
                   console := c |}, Return r).
Proof.
  destruct a, o as [[r|e]|[r|e]|[r|e]]; simpl; intros H;
    inversion H; subst; (split; [reflexivity|]);
    intros w; eexists; eexists; reflexivity.
Qed.

Lemma settles_resume a o :
  settles a o = true ->
  exists t', resume (residual (invoke origin a)) o = Some t'.
Proof.
  destruct a, o; simpl; intros H; try discriminate; eexists; reflexivity.
Qed.

Lemma settle_operation_total a o w :
  settles a o = true ->
  exists c r,
    settle_operation origin a o w
    = Some ({| store := AuthContext.setIsLoading false (store w);
               console := c |}, Fulfilled r).
Proof.
  intros H. destruct (settles_resume a o H) as [t' E].
  destruct (resume_operation a o t' E) as [_ R].
  destruct (R w) as (c & r & Hr).
  exists c, r. unfold settle_operation, settle_task.
  rewrite E, Hr. reflexivity.
Qed.

Lemma pending_shape s i org t :
  well_formed origin s ->
  nth_error (pending s) i = Some (org, t) ->
  t = residual (started origin org).
Proof.
  intros W H. unfold well_formed in W. rewrite Forall_forall in W.
  apply (W (org, t)). eapply nth_error_In; eauto.
Qed.

Lemma step_Transition s ev s' :
  well_formed origin s ->
  step origin ev s = Some s' ->
  Transition origin s ev s'.
Proof.
  intros W H. destruct ev as [a|i o|ses|]; simpl in H.
  - inversion H; subst; clear H. unfold advance.
    rewrite invoke_run. destruct a; simpl; constructor.
  - destruct (nth_error (pending s) i) as [[org t]|] eqn:N; [|discriminate].
    pose proof (pending_shape s i org t W N) as ->.
    destruct (resume _ o) as [t'|] eqn:E; [|discriminate].
    inversion H; subst; clear H. destruct org as [|a].
    + destruct o as [?|?|[r|e]]; simpl in E; try discriminate;
        inversion E; subst; clear E; unfold advance; simpl;
        econstructor; eassumption.
    + change (started origin (Operation a)) with (invoke origin a) in E.
      destruct (resume_operation a o t' E) as [_ R].
      destruct (R (world s)) as (c & r & Hr).
      unfold advance. rewrite Hr.
      eapply T_operation_settled; [eassumption|].
      unfold settle_operation, settle_task. rewrite E, Hr. reflexivity.
  - destruct (subscribed s) eqn:Sb.
    + inversion H; subst; clear H. simpl. now constructor.
    + inversion H; subst; clear H. now constructor.
  - destruct (mounted s) eqn:M; [|discriminate].
    inversion H; subst; clear H. now constructor.
Qed.

Lemma Transition_Invariant s ev s' :
  Transition origin s ev s' -> Invariant origin s -> Invariant origin s'.
Proof.
  intros T [W U L Sb].
  inversion T; subst; clear T; constructor; unfold auth in *; simpl in *;
    try assumption; try reflexivity; try discriminate.
  - (* invoke: the new entry is well formed *)
    apply Forall_app. split; [exact W|]. constructor; [reflexivity|constructor].
  - (* invoke: an operation is outstanding *)
    intros _. right. right. unfold operation_outstanding. simpl.
    rewrite existsb_app. simpl. apply orb_true_r.
  - now apply Forall_remove_nth.
  - now apply Forall_remove_nth.
  - now apply Forall_remove_nth.
  - (* a rejected fetch leaves isLoading as it was *)
    intros _. right. left. unfold fetch_rejected. simpl.
    rewrite existsb_app. simpl. apply orb_true_r.
  - destruct (mounted s); destruct Sb; split; congruence.
  - rewrite H in Sb. destruct Sb as [_ ->]. split; reflexivity.
Qed.

Lemma mount_Invariant : Invariant origin mount.
Proof.
  constructor; simpl.
  - repeat constructor.
  - reflexivity.
  - intros _. left. reflexivity.
  - split; reflexivity.
Qed.

Lemma step_Invariant s ev s' :
  Invariant origin s -> step origin ev s = Some s' -> Invariant origin s'.
Proof.
  intros I H. eapply Transition_Invariant; [|exact I].
  apply step_Transition; [apply I | exact H].
Qed.

Lemma exec_Invariant tr : forall s s',
  Invariant origin s -> exec origin tr s = Some s' -> Invariant origin s'.
Proof.
  induction tr as [|ev tr IH]; intros s s' I H; simpl in H.
  - inversion H; subst; exact I.
  - destruct (step origin ev s) as [s1|] eqn:E; [|discriminate].
    eapply IH; [|exact H]. eapply step_Invariant; eauto.
Qed.

Lemma Reachable_Invariant s : Reachable origin s -> Invariant origin s.
Proof.
  intros [tr H]. eapply exec_Invariant; [apply mount_Invariant | exact H].
Qed.

Lemma Reachable_step s ev s' :
  Reachable origin s -> step origin ev s = Some s' -> Reachable origin s'.
Proof.
  intros [tr H] E. exists (tr ++ [ev]).
  revert H. generalize mount. induction tr as [|e tr IH]; intros s0 H; simpl in *.
  - inversion H; subst. now rewrite E.
  - destruct (step origin e s0); [|discriminate]. now apply IH.
Qed.

Lemma exec_app tr1 tr2 s :
  exec origin (tr1 ++ tr2) s
  = match exec origin tr1 s with
    | Some s1 => exec origin tr2 s1
    | None => None
    end.
Proof.
  revert s. induction tr1 as [|e tr1 IH]; intros s; simpl; [reflexivity|].
  destruct (step origin e s); [apply IH | reflexivity].
Qed.

Lemma Reachable_exec s tr s' :
  Reachable origin s -> exec origin tr s = Some s' -> Reachable origin s'.
Proof.
  intros [tr0 H] E. exists (tr0 ++ tr). now rewrite exec_app, H.
Qed.

Lemma step_settle_operation s i a t o :
  well_formed origin s ->
  nth_error (pending s) i = Some (Operation a, t) ->
  settles a o = true ->
  exists c r,
    step origin (Settle i o) s
    = Some {| world := {| store := AuthContext.setIsLoading false (auth s);
                          console := c |};
              pending := remove_nth i (pending s);
              settled := settled s ++ [(Operation a, Fulfilled r)];
              subscribed := subscribed s; mounted := mounted s;
              unsubscribeCalls := unsubscribeCalls s |}.
Proof.
  intros W N H.
  pose proof (pending_shape s i (Operation a) t W N) as ->.
  destruct (settles_resume a o H) as [t' E].
  destruct (resume_operation a o t' E) as [_ R].
  destruct (R (world s)) as (c & r & Hr).
  exists c, r. simpl. rewrite N. simpl started. rewrite E.
  unfold advance. rewrite Hr. reflexivity.
Qed.

Lemma step_invoke s a :
  step origin (Invoke a) s
  = Some {| world := {| store := AuthContext.setIsLoading true (auth s);
                        console := console (world s) |};
            pending := pending s ++ [(Operation a, residual (invoke origin a))];
            settled := settled s;
            subscribed := subscribed s; mounted := mounted s;
            unsubscribeCalls := unsubscribeCalls s |}.
Proof.
  simpl. unfold advance. rewrite invoke_run. destruct a; reflexivity.
Qed.

Lemma step_settle_at s i a o w' r :
  nth_error (pending s) i = Some (Operation a, residual (invoke origin a)) ->
  settle_operation origin a o (world s) = Some (w', Fulfilled r) ->
  step origin (Settle i o) s
  = Some {| world := w';
            pending := remove_nth i (pending s);
            settled := settled s ++ [(Operation a, Fulfilled r)];
            subscribed := subscribed s; mounted := mounted s;
            unsubscribeCalls := unsubscribeCalls s |}.
Proof.
  intros N H. unfold settle_operation, settle_task in H.
  simpl. rewrite N.
  destruct (resume (residual (invoke origin a)) o) as [t'|]; [|discriminate].
  unfold advance.
  destruct (run t' (world s)) as [w1 t1].
  destruct t1; simpl in H; inversion H; subst; reflexivity.
Qed.

Lemma settle_logout o w :
  exists c,
    settle_operation origin Logout (SettleSignOut o) w
    = Some ({| store := AuthContext.setIsLoading false (store w);
               console := c |}, Fulfilled Undefined).
Proof. destruct o as [r|e]; eexists; reflexivity. Qed.

(** X10: every step that changes session or user is a run of
    updateAuthState: by the listener of change-events, or by the callback
    of the initial fetch. *)
Lemma session_user_writers s ev s' :
  Reachable origin s ->
  step origin ev s = Some s' ->
  AuthContext.session (auth s') <> AuthContext.session (auth s)
  \/ AuthContext.user (auth s') <> AuthContext.user (auth s) ->
  (exists ses, ev = AuthStateChange ses /\ subscribed s = true)
  \/ (exists i t r, ev = Settle i (SettleSession (Fulfilled r))
                   /\ nth_error (pending s) i = Some (InitialFetch, t)).
Proof.
  intros R H D. apply Reachable_Invariant in R.
  apply step_Transition in H; [|apply R].
  inversion H; subst; clear H; unfold auth in D; simpl in D;
    try (exfalso; destruct D as [D|D]; apply D; reflexivity).
  - right. eauto.
  - left. eauto.
Qed.

Lemma unmounted_stays s ev s' :
  mounted s = false -> step origin ev s = Some s' -> mounted s' = false.
Proof.
  intros M H. destruct ev as [a|i o|ses|]; simpl in H.
  - inversion H; subst. unfold advance.
    destruct (run (invoke origin a) (world s)) as [w t]. destruct t; exact M.
  - destruct (nth_error (pending s) i) as [[org t]|]; [|discriminate].
    destruct (resume t o) as [t'|]; [|discriminate].
    inversion H; subst. unfold advance.
    destruct (run t' (world s)) as [w t'']. destruct t''; exact M.
  - destruct (subscribed s); inversion H; subst; exact M.
  - rewrite M in H. discriminate.
Qed.

Lemma unmounted_exec tr : forall s s',
  mounted s = false -> exec origin tr s = Some s' -> mounted s' = false.
Proof.
  induction tr as [|ev tr IH]; intros s s' M H; simpl in H.
  - inversion H; subst; exact M.
  - destruct (step origin ev s) as [s1|] eqn:E; [|discriminate].
    eapply IH; [|exact H]. eapply unmounted_stays; eauto.
Qed.

(** Change-events that carry no session keep a logged-out provider
    logged out, and touch no pending call and no settled promise. *)
Lemma exec_null_changes evs : forall s,
  Forall (fun ev => ev = AuthStateChange None) evs ->
  AuthContext.session (auth s) = None ->
  exists s', exec origin evs s = Some s'
             /\ AuthContext.session (auth s') = None
             /\ pending s' = pending s /\ settled s' = settled s.
Proof.
  induction evs as [|ev evs IH]; intros s F N.
  - exists s. repeat split; auto.
  - inversion F as [|? ? E F']; subst. simpl.
    destruct (subscribed s).
    + match goal with |- context [exec origin evs ?s1] =>
        destruct (IH s1 F' eq_refl) as (s' & E1 & E2 & E3 & E4) end.
      exists s'. repeat split; assumption.
    + destruct (IH s F' N) as (s' & E1 & E2 & E3 & E4).
      exists s'. repeat split; assumption.
Qed.

End EventLoopFacts.

(** ** The synchronized state *)

Section Synchronizer.
Variable origin : jsstring.

(** C1: in every reachable state of the synchronizer the context value
    has isAuthenticated equal to (user != null) and user equal to
    session?.user: the user held by the stored session, and null when no
    session is stored.  updateAuthState writes session and user from the
    one Session value it is given, and isAuthenticated is computed from
    user when the context value is built. *)
Theorem C1_state_consistency s :
  Reachable origin s ->
  (AuthContext.isAuthenticated (AuthContext.value (auth s)) = true
   <-> AuthContext.value_user (AuthContext.value (auth s)) <> None)
  /\ match AuthContext.value_session (AuthContext.value (auth s)) with
     | Some ses =>
         AuthContext.value_user (AuthContext.value (auth s))
         = Some (Session.user ses)
     | None => AuthContext.value_user (AuthContext.value (auth s)) = None
     end
  /\ (forall ses w,
        store (fst (run (AuthContext.updateAuthState (Some ses)) w))
        = {| AuthContext.user := Some (Session.user ses);
             AuthContext.session := Some ses;
             AuthContext.isLoading := false |})
  /\ (forall w,
        store (fst (run (AuthContext.updateAuthState None) w))
        = {| AuthContext.user := None;
             AuthContext.session := None;
             AuthContext.isLoading := false |})
  /\ (forall st,
        AuthContext.isAuthenticated (AuthContext.value st)
        = match AuthContext.user st with
          | Some _ => true
          | None => false
          end).
Proof.
  intros R. apply Reachable_Invariant in R. destruct R as [_ U _ _].
  split; [|split; [|split; [|split]]]; simpl.
  - split.
    + destruct (AuthContext.user (auth s)); [discriminate|].
      intros H; discriminate.
    + destruct (AuthContext.user (auth s)); [reflexivity|].
      intros H; now elim H.
  - rewrite U. destruct (AuthContext.session (auth s)); reflexivity.
  - reflexivity.
  - reflexivity.
  - reflexivity.
Qed.

(** X17: every login, register or logout sets isLoading to true before
    its provider call; whatever way the call settles (a response without
    error, a response with an error, a thrown value), isLoading is false
    when the operation's promise settles; and unless the initial fetch
    was rejected, isLoading is true only while that fetch has not
    settled or while one of these operations is outstanding. *)
Theorem loading_brackets_operations s :
  Reachable origin s ->
  (forall a, exists s1,
      step origin (Invoke a) s = Some s1
      /\ AuthContext.isLoading (auth s1) = true
      /\ pending s1 = pending s ++ [(Operation a, residual (invoke origin a))]
      /\ settled s1 = settled s)
  /\ (forall i a t o,
        nth_error (pending s) i = Some (Operation a, t) ->
        settles a o = true ->
        exists s2 r,
          step origin (Settle i o) s = Some s2
          /\ AuthContext.isLoading (auth s2) = false
          /\ settled s2 = settled s ++ [(Operation a, Fulfilled r)])
  /\ (fetch_rejected s = false ->
      AuthContext.isLoading (auth s) = true ->
      fetch_settled s = false \/ operation_outstanding s = true).
Proof.
  intros R. apply Reachable_Invariant in R. destruct R as [W _ L _].
  split; [|split].
  - intros a. eexists. split; [apply step_invoke|].
    repeat split; reflexivity.
  - intros i a t o N H.
    destruct (step_settle_operation origin s i a t o W N H) as (c & r & E).
    eexists. exists r. split; [exact E|]. split; reflexivity.
  - intros Rj HL. destruct (L HL) as [F|[F|F]]; [now left | congruence | now right].
Qed.

(** C5, as the code has it: no login, register or logout writes session
    or user: neither the part that runs before the provider call nor the
    part that runs once the call has settled, whatever the response
    carries.  They write isLoading only.  Session and user are written
    by updateAuthState only, which runs in the listener of change-events
    and in the callback of the initial getSession(). *)
Theorem C5_operations_leave_session_and_user s :
  Reachable origin s ->
  (forall a s1,
      step origin (Invoke a) s = Some s1 ->
      AuthContext.session (auth s1) = AuthContext.session (auth s)
      /\ AuthContext.user (auth s1) = AuthContext.user (auth s))
  /\ (forall i a t o s2,
        nth_error (pending s) i = Some (Operation a, t) ->
        step origin (Settle i o) s = Some s2 ->
        AuthContext.session (auth s2) = AuthContext.session (auth s)
        /\ AuthContext.user (auth s2) = AuthContext.user (auth s))
  /\ (forall a o w w' c,
        settle_operation origin a o w = Some (w', c) ->
        store w' = AuthContext.setIsLoading false (store w))
  /\ (forall ev s',
        step origin ev s = Some s' ->
        AuthContext.session (auth s') <> AuthContext.session (auth s)
        \/ AuthContext.user (auth s') <> AuthContext.user (auth s) ->
        (exists ses, ev = AuthStateChange ses /\ subscribed s = true)
        \/ (exists i t r,
              ev = Settle i (SettleSession (Fulfilled r))
              /\ nth_error (pending s) i = Some (InitialFetch, t))).
Proof.
  intros R. apply Reachable_Invariant in R. destruct R as [W _ _ _].
  split; [|split; [|split]]; [| | |
    intros ev s' H D; apply step_Transition in H; [|exact W];
    inversion H; subst; clear H; unfold auth in D; simpl in D;
    try (exfalso; destruct D as [D|D]; apply D; reflexivity);
    [right; eauto | left; eauto]].
  - intros a s1 H. apply step_Transition in H; [|exact W].
    inversion H; subst. split; reflexivity.
  - intros i a t o s2 N H. apply step_Transition in H; [|exact W].
    inversion H; subst; try (split; reflexivity); congruence.
  - intros a o w w' c H. unfold settle_operation, settle_task in H.
    destruct (resume _ o) as [t'|] eqn:E; [|discriminate].
    destruct (resume_operation origin a o t' E) as [_ Rn].
    destruct (Rn w) as (c0 & r & Hr). rewrite Hr in H. simpl in H.
    inversion H; subst. reflexivity.
Qed.

(** C7: logout in a logged-out state.  From any state whose session is
    null, logout() followed by any number of change-events without a
    session and by any settlement of signOut resolves (it does not
    reject), its promise carries no error, and session is still null. *)
Theorem C7_logout_when_logged_out s o evs :
  AuthContext.session (auth s) = None ->
  Forall (fun ev => ev = AuthStateChange None) evs ->
  exists s',
    exec origin
      (Invoke Logout :: evs ++ [Settle (List.length (pending s)) (SettleSignOut o)]) s
    = Some s'
    /\ AuthContext.session (auth s') = None
    /\ AuthContext.isLoading (auth s') = false
    /\ settled s' = settled s ++ [(Operation Logout, Fulfilled Undefined)]
    /\ pending s' = pending s.
Proof.
  intros N F.
  cbn [exec]. rewrite step_invoke.
  match goal with |- context [exec origin _ ?s1] => set (s1_ := s1) end.
  destruct (exec_null_changes origin evs s1_ F N) as (s2 & E & N2 & P2 & S2).
  rewrite exec_app, E. cbn [exec].
  destruct (settle_logout origin o (world s2)) as [c Hc].
  destruct (remove_nth_last _ (pending s)
              (Operation Logout, residual (invoke origin Logout))) as [Hn Hr].
  assert (Hn2 : nth_error (pending s2) (List.length (pending s))
                = Some (Operation Logout, residual (invoke origin Logout))).
  { rewrite P2. subst s1_. exact Hn. }
  rewrite (step_settle_at origin s2 _ Logout _ _ Undefined Hn2 Hc).
  eexists. split; [reflexivity|]. unfold auth in *.
  cbn [world store pending settled AuthContext.session AuthContext.isLoading
       AuthContext.setIsLoading].
  rewrite P2, S2. subst s1_. cbn [pending settled]. rewrite Hr.
  repeat split. exact N2.
Qed.

(** C8: unmounting the provider calls unsubscribe once, no later step
    calls it again, and a change-event emitted after the unmount changes
    nothing of the state. *)
Theorem C8_unsubscribe_once s :
  Reachable origin s ->
  mounted s = true ->
  unsubscribeCalls s = 0
  /\ exists s1,
      step origin Unmount s = Some s1
      /\ unsubscribeCalls s1 = 1
      /\ forall tr s2,
          exec origin tr s1 = Some s2 ->
          unsubscribeCalls s2 = 1
          /\ step origin Unmount s2 = None
          /\ forall ses, step origin (AuthStateChange ses) s2 = Some s2.
Proof.
  intros R M. pose proof (Reachable_Invariant origin s R) as [_ _ _ Sb].
  rewrite M in Sb. destruct Sb as [Sb C]. split; [exact C|].
  assert (U : step origin Unmount s
              = Some {| world := world s; pending := pending s;
                        settled := settled s;
                        subscribed := false; mounted := false;
                        unsubscribeCalls := S (unsubscribeCalls s) |}).
  { simpl. rewrite M. reflexivity. }
  eexists. split; [exact U|].
  split; [simpl; now rewrite C|].
  intros tr s2 E.
  assert (R2 : Reachable origin s2).
  { eapply Reachable_exec; [|exact E].
    eapply Reachable_step; [exact R|exact U]. }
  assert (M2 : mounted s2 = false).
  { eapply unmounted_exec; [|exact E]. reflexivity. }
  pose proof (Reachable_Invariant origin s2 R2) as [_ _ _ Sb2].
  rewrite M2 in Sb2. destruct Sb2 as [Sb2 C2].
  split; [exact C2|]. split.
  - simpl. now rewrite M2.
  - intros ses. simpl. now rewrite Sb2.
Qed.

End Synchronizer.

(** C5 as stated fails where it says that the change-event handler alone
    writes session and user: with a login outstanding and no change-event
    at all, the fulfilment of the initial getSession() stores its
    session. *)
Lemma C5_initial_fetch_writes_session :
  option_map (fun s => (AuthContext.session (auth s), map fst (pending s)))
    (exec sample_origin [Invoke (Login (js "a@b.com") (js "secret"))] mount)
  = Some (None, [InitialFetch; Operation (Login (js "a@b.com") (js "secret"))])
  /\ option_map (fun s => (AuthContext.session (auth s), map fst (pending s)))
       (exec sample_origin
          [Invoke (Login (js "a@b.com") (js "secret"));
           Settle 0 (SettleSession (Fulfilled session_found))] mount)
     = Some (Some sample_session,
             [Operation (Login (js "a@b.com") (js "secret"))]).
Proof. split; reflexivity. Qed.

(** ** Results of the operations *)

(** C3, as the code has it: no operation throws before its provider
    call and none rejects, whatever way the call settles.  login and
    register resolve with [{ error }]: the error of the provider's
    response (null when it reports none), or the UnexpectedError
    descriptor when the call threw.  logout resolves with undefined. *)
Theorem C3_operations_never_reject origin :
  (forall a, completion (residual (invoke origin a)) = None)
  /\ (forall email password r w,
        settle_operation origin (Login email password)
          (SettleAuth (Fulfilled r)) w
        = Some ({| store := AuthContext.setIsLoading false (store w);
                   console := console w |},
                Fulfilled (ErrorObject (auth_error r))))
  /\ (forall email password e w, exists c,
        settle_operation origin (Login email password)
          (SettleAuth (Rejected e)) w
        = Some ({| store := AuthContext.setIsLoading false (store w);
                   console := c |},
                Fulfilled (ErrorObject
                  (Some (authService.UnexpectedError authService.login_failed)))))
  /\ (forall email password firstName lastName r w,
        settle_operation origin (Register email password firstName lastName)
          (SettleAuth (Fulfilled r)) w
        = Some ({| store := AuthContext.setIsLoading false (store w);
                   console := console w |},
                Fulfilled (ErrorObject (auth_error r))))
  /\ (forall email password firstName lastName e w, exists c,
        settle_operation origin (Register email password firstName lastName)
          (SettleAuth (Rejected e)) w
        = Some ({| store := AuthContext.setIsLoading false (store w);
                   console := c |},
                Fulfilled (ErrorObject
                  (Some (authService.UnexpectedError authService.register_failed)))))
  /\ (forall o w, exists c,
        settle_operation origin Logout (SettleSignOut o) w
        = Some ({| store := AuthContext.setIsLoading false (store w);
                   console := c |}, Fulfilled Undefined)).
Proof.
  repeat split.
  - intros a. apply invoke_suspends.
  - intros. eexists. reflexivity.
  - intros. eexists. reflexivity.
  - intros o w. apply settle_logout.
Qed.

(** C3 as stated fails for logout: when signOut reports an error, and
    when it throws, the promise of logout resolves with undefined, which
    carries no error. *)
Lemma C3_logout_carries_no_error :
  settle_operation sample_origin Logout
    (SettleSignOut (Fulfilled {| signout_error := Some sample_error |}))
    sample_world
  = Some ({| store := AuthContext.setIsLoading false AuthContext.initialState;
             console := [] |}, Fulfilled Undefined)
  /\ option_map snd
       (settle_operation sample_origin Logout
          (SettleSignOut (Rejected sample_thrown)) sample_world)
     = Some (Fulfilled Undefined)
  /\ carries_error Undefined = false.
Proof. repeat split. Qed.

(** ** src/database/authService.tsx: one failure path *)

(** C4: loginUser, registerUser and logoutUser hand the provider's
    response on with its error unchanged; when the provider call throws,
    the exception is caught and the result has user and session null
    (where the result has these fields) and the error
    [{ name: 'UnexpectedError', message }]. *)
Theorem C4_service_error_handling (S : Type) (w : World S) :
  (forall email password r,
      settle_task (authService.loginUser email password)
        (SettleAuth (Fulfilled r)) w
      = Some (w, Fulfilled
                   {| authService.user := data_user (auth_data r);
                      authService.session := data_session (auth_data r);
                      authService.error := auth_error r |}))
  /\ (forall email password e, exists c,
        settle_task (authService.loginUser email password)
          (SettleAuth (Rejected e)) w
        = Some ({| store := store w; console := c |},
                Fulfilled
                  {| authService.user := None;
                     authService.session := None;
                     authService.error :=
                       Some {| name := js "UnexpectedError";
                               message := authService.login_failed |} |}))
  /\ (forall origin email password firstName lastName r,
        settle_task
          (authService.registerUser origin email password firstName lastName)
          (SettleAuth (Fulfilled r)) w
        = Some (w, Fulfilled
                     {| authService.user := data_user (auth_data r);
                        authService.session := data_session (auth_data r);
                        authService.error := auth_error r |}))
  /\ (forall origin email password firstName lastName e, exists c,
        settle_task
          (authService.registerUser origin email password firstName lastName)
          (SettleAuth (Rejected e)) w
        = Some ({| store := store w; console := c |},
                Fulfilled
                  {| authService.user := None;
                     authService.session := None;
                     authService.error :=
                       Some {| name := js "UnexpectedError";
                               message := authService.register_failed |} |}))
  /\ (forall r,
        settle_task authService.logoutUser (SettleSignOut (Fulfilled r)) w
        = Some (w, Fulfilled {| authService.logout_error := signout_error r |}))
  /\ (forall e, exists c,
        settle_task authService.logoutUser (SettleSignOut (Rejected e)) w
        = Some ({| store := store w; console := c |},
                Fulfilled
                  {| authService.logout_error :=
                       Some {| name := js "UnexpectedError";
                               message := authService.logout_failed |} |})).
Proof.
  destruct w as [st c].
  repeat split; intros; try (eexists; reflexivity); reflexivity.
Qed.

(** ** The initial fetch *)

(** A getSession() that resolves with an error and no session makes the
    provider ready with a null session. *)
Lemma fetch_error_reported origin err :
  option_map auth
    (exec origin
       [Settle 0 (SettleSession
                    (Fulfilled {| session_data := None;
                                  session_error := Some err |}))] mount)
  = Some {| AuthContext.user := None; AuthContext.session := None;
            AuthContext.isLoading := false |}.
Proof. reflexivity. Qed.

(** getCurrentSession of authService, which AuthProvider does not call,
    turns a rejected getSession() into null. *)
Lemma getCurrentSession_rejected (S : Type) (w : World S) e :
  option_map snd
    (settle_task authService.getCurrentSession (SettleSession (Rejected e)) w)
  = Some (Fulfilled None).
Proof. reflexivity. Qed.

(** C6 on the code: when the initial getSession() rejects, the callback
    given to [then] does not run and nothing catches the rejection; the
    state stays as created, with isLoading true, and no call is left
    that would end the loading. *)
Theorem C6_rejected_fetch_stays_loading origin e :
  exec origin [Settle 0 (SettleSession (Rejected e))] mount
  = Some {| world := {| store := {| AuthContext.user := None;
                                    AuthContext.session := None;
                                    AuthContext.isLoading := true |};
                        console := [] |};
            pending := [];
            settled := [(InitialFetch, Rejected e)];
            subscribed := true; mounted := true; unsubscribeCalls := 0 |}.
Proof. reflexivity. Qed.

(** C2 on the code: when the initial getSession() rejects and no
    operation has been called, initialization is over (the fetch has
    settled) and no operation is outstanding, yet isLoading is true; it
    stays true until a change-event or an operation ends it. *)
Theorem C2_loading_after_rejected_fetch origin e :
  option_map
    (fun s => (AuthContext.isLoading (auth s), fetch_settled s,
               operation_outstanding s, List.length (pending s)))
    (exec origin [Settle 0 (SettleSession (Rejected e))] mount)
  = Some (true, true, false, 0).
Proof. reflexivity. Qed.


(** ** The metadata of registerUser *)

Lemma trimStart_all_white s :
  forallb isWhiteSpace s = true -> trimStart s = [].
Proof.
  induction s as [|c s IH]; simpl; [reflexivity|].
  destruct (isWhiteSpace c); simpl; [exact IH | discriminate].
Qed.

Lemma trimStart_snoc_white s c :
  isWhiteSpace c = true ->
  trimStart (s ++ [c])
  = if forallb isWhiteSpace s then [] else trimStart s ++ [c].
Proof.
  intros Hc. induction s as [|d s IH]; simpl.
  - now rewrite Hc.
  - destruct (isWhiteSpace d); simpl; [exact IH | reflexivity].
Qed.

Lemma trimStart_suffix s :
  exists p, s = p ++ trimStart s.
Proof.
  induction s as [|c s [p IH]]; simpl.
  - exists []. reflexivity.
  - destruct (isWhiteSpace c).
    + exists (c :: p). simpl. now rewrite <- IH.
    + exists []. reflexivity.
Qed.

Lemma trimStart_clean s : startsWithWhiteSpace (trimStart s) = false.
Proof.
  induction s as [|c s IH]; simpl; [reflexivity|].
  destruct (isWhiteSpace c) eqn:E; [exact IH | simpl; exact E].
Qed.

Lemma trimEnd_prefix s : exists q, s = trimEnd s ++ q.
Proof.
  unfold trimEnd. destruct (trimStart_suffix (rev s)) as [p E].
  exists (rev p). rewrite <- rev_app_distr, <- E. now rewrite rev_involutive.
Qed.

Lemma trim_clean s :
  startsWithWhiteSpace (trim s) = false /\ endsWithWhiteSpace (trim s) = false.
Proof.
  split.
  - unfold trim. destruct (trimEnd_prefix (trimStart s)) as [q E].
    pose proof (trimStart_clean s) as C. rewrite E in C.
    destruct (trimEnd (trimStart s)); [reflexivity | exact C].
  - unfold endsWithWhiteSpace, trim, trimEnd. rewrite rev_involutive.
    apply trimStart_clean.
Qed.

Lemma trim_snoc_space s : trim (s ++ [SPACE]) = trim s.
Proof.
  unfold trim, trimEnd. rewrite trimStart_snoc_white by reflexivity.
  destruct (forallb isWhiteSpace s) eqn:E.
  - now rewrite (trimStart_all_white s E).
  - rewrite rev_app_distr. reflexivity.
Qed.

Lemma trim_cons_space s : trim (SPACE :: s) = trim s.
Proof. reflexivity. Qed.

Lemma trimStart_split s :
  exists p, s = p ++ trimStart s /\ forallb isWhiteSpace p = true.
Proof.
  induction s as [|c s (p & E & W)]; simpl.
  - exists []. split; reflexivity.
  - destruct (isWhiteSpace c) eqn:C.
    + exists (c :: p). simpl. rewrite C, W. split; [now rewrite <- E | reflexivity].
    + exists []. split; reflexivity.
Qed.

Lemma forallb_white_rev l :
  forallb isWhiteSpace (rev l) = forallb isWhiteSpace l.
Proof.
  induction l as [|c l IH]; simpl; [reflexivity|].
  rewrite forallb_app, IH. simpl. rewrite andb_true_r. apply andb_comm.
Qed.

(** [trim] removes white space at the two ends and nothing else. *)
Lemma trim_split s :
  exists pre post,
    s = pre ++ trim s ++ post
    /\ forallb isWhiteSpace pre = true
    /\ forallb isWhiteSpace post = true.
Proof.
  destruct (trimStart_split s) as (pre & E1 & W1).
  destruct (trimStart_split (rev (trimStart s))) as (q & E2 & W2).
  exists pre, (rev q). unfold trim, trimEnd.
  rewrite <- rev_app_distr, <- E2, rev_involutive.
  split; [exact E1|]. split; [exact W1|]. now rewrite forallb_white_rev.
Qed.

Lemma trimStart_keeps s : startsWithWhiteSpace s = false -> trimStart s = s.
Proof.
  destruct s as [|c s]; simpl; [reflexivity|]. intros ->. reflexivity.
Qed.

(** A string with no white space at its ends is its own [trim]. *)
Lemma trim_keeps s :
  startsWithWhiteSpace s = false -> endsWithWhiteSpace s = false ->
  trim s = s.
Proof.
  intros H1 H2. unfold trim, trimEnd. rewrite (trimStart_keeps s H1).
  rewrite (trimStart_keeps (rev s) H2). apply rev_involutive.
Qed.

Lemma endsWithWhiteSpace_app a c l :
  endsWithWhiteSpace (a ++ c :: l) = endsWithWhiteSpace (c :: l).
Proof.
  unfold endsWithWhiteSpace. rewrite rev_app_distr.
  destruct (rev (c :: l)) as [|d r] eqn:E; [|reflexivity].
  apply (f_equal (@List.length N)) in E. rewrite length_rev in E.
  discriminate.
Qed.

(** C10: the signUp call of registerUser carries the metadata
    first_name = firstName || '', last_name = lastName || '' and
    full_name = the two joined by one space, with the white space at the
    two ends removed and nothing else.  Omitted names give empty
    strings; given names are passed as they are; with both omitted
    full_name is empty; with one omitted full_name is the other name
    trimmed; two names without white space at their outer ends are kept
    whole, one space between them; full_name never starts or ends with
    white space. *)
Theorem C10_register_metadata (S : Type) origin email password firstName lastName :
  signUp_request
    (authService.registerUser (S := S) origin email password firstName lastName)
  = Some (email, password,
          {| data :=
               {| first_name := or_empty firstName;
                  last_name := or_empty lastName;
                  full_name :=
                    trim (or_empty firstName ++ [SPACE] ++ or_empty lastName) |};
             emailRedirectTo := origin ++ js "/login" |})
  /\ or_empty None = []
  /\ (forall x, or_empty (Some x) = x)
  /\ full_name (authService.metadata None None) = []
  /\ (forall x, full_name (authService.metadata (Some x) None) = trim x)
  /\ (forall x, full_name (authService.metadata None (Some x)) = trim x)
  /\ startsWithWhiteSpace (full_name (authService.metadata firstName lastName))
     = false
  /\ endsWithWhiteSpace (full_name (authService.metadata firstName lastName))
     = false
  /\ (exists pre post,
        or_empty firstName ++ [SPACE] ++ or_empty lastName
        = pre ++ full_name (authService.metadata firstName lastName) ++ post
        /\ forallb isWhiteSpace pre = true
        /\ forallb isWhiteSpace post = true)
  /\ (forall x y,
        firstName = Some x -> lastName = Some y ->
        startsWithWhiteSpace x = false -> x <> [] ->
        endsWithWhiteSpace y = false -> y <> [] ->
        signUp_request
          (authService.registerUser (S := S) origin email password
             firstName lastName)
        = Some (email, password,
                {| data := {| first_name := x; last_name := y;
                              full_name := x ++ [SPACE] ++ y |};
                   emailRedirectTo := origin ++ js "/login" |}))
  /\ (forall x,
        startsWithWhiteSpace x = false -> endsWithWhiteSpace x = false ->
        full_name (authService.metadata (Some x) None) = x
        /\ full_name (authService.metadata None (Some x)) = x)
  /\ authService.metadata (Some (js "Ana")) (Some (js "Diaz"))
     = {| first_name := js "Ana"; last_name := js "Diaz";
          full_name := js "Ana Diaz" |}
  /\ authService.metadata (Some (js " Ana Maria ")) None
     = {| first_name := js " Ana Maria "; last_name := [];
          full_name := js "Ana Maria" |}.
Proof.
  split; [reflexivity|]. split; [reflexivity|].
  split; [intros [|c x]; reflexivity|].
  split; [reflexivity|].
  split.
  { intros [|c x]; [reflexivity|].
    change (trim ((c :: x) ++ [SPACE]) = trim (c :: x)).
    apply trim_snoc_space. }
  split.
  { intros [|c x]; reflexivity. }
  split; [apply trim_clean|]. split; [apply trim_clean|].
  split; [apply trim_split|].
  split.
  { intros x y -> -> Hx Nx Hy Ny.
    destruct x as [|c x]; [congruence|]. destruct y as [|d y]; [congruence|].
    unfold authService.registerUser, signUp_request. simpl residual.
    unfold authService.metadata. cbn [or_empty].
    rewrite trim_keeps; [reflexivity | exact Hx |].
    change ((c :: x) ++ [SPACE] ++ d :: y) with ((c :: x) ++ SPACE :: d :: y).
    rewrite endsWithWhiteSpace_app.
    change (SPACE :: d :: y) with ([SPACE] ++ d :: y).
    rewrite endsWithWhiteSpace_app. exact Hy. }
  split.
  { intros x Hx Hy. unfold authService.metadata. cbn [full_name].
    destruct x as [|c x]; [split; reflexivity|]. cbn [or_empty]. split.
    - change (trim ((c :: x) ++ [SPACE]) = c :: x).
      rewrite trim_snoc_space. now apply trim_keeps.
    - change (trim (SPACE :: c :: x) = c :: x).
      rewrite trim_cons_space. now apply trim_keeps. }
  split; reflexivity.
Qed.

(** ** The theorems at sample states *)

Lemma ready_reachable : Reachable sample_origin ready.
Proof. exists ready_trace. reflexivity. Defined.

Lemma login_pending_reachable : Reachable sample_origin login_pending.
Proof. exists login_pending_trace. reflexivity. Defined.

Lemma logged_in_reachable : Reachable sample_origin logged_in.
Proof. exists logged_in_trace. reflexivity. Defined.

Lemma C1_state_consistency_witness :
  Reachable sample_origin logged_in
  /\ AuthContext.value_session (AuthContext.value (auth logged_in))
     = Some {| Session.access_token := js "token-1";
               Session.user := {| User.id := js "u-1";
                                  User.email := js "a@b.com" |} |}
  /\ AuthContext.value_user (AuthContext.value (auth logged_in))
     = Some {| User.id := js "u-1"; User.email := js "a@b.com" |}
  /\ AuthContext.isAuthenticated (AuthContext.value (auth logged_in)) = true.
Proof.
  split; [exact logged_in_reachable|].
  destruct (C1_state_consistency sample_origin logged_in logged_in_reachable)
    as (A & U & _).
  assert (E : AuthContext.value_session (AuthContext.value (auth logged_in))
              = Some {| Session.access_token := js "token-1";
                        Session.user := {| User.id := js "u-1";
                                           User.email := js "a@b.com" |} |})
    by reflexivity.
  split; [exact E|].
  rewrite E in U. simpl Session.user in U.
  split; [exact U|].
  apply A. rewrite U. discriminate.
Defined.

Lemma loading_brackets_operations_witness :
  Reachable sample_origin login_pending
  /\ AuthContext.isLoading (auth login_pending) = true
  /\ (fetch_settled login_pending = false
      \/ operation_outstanding login_pending = true)
  /\ exists s2 r,
       step sample_origin (Settle 0 (SettleAuth (Rejected sample_thrown)))
         login_pending = Some s2
       /\ AuthContext.isLoading (auth s2) = false
       /\ settled s2
          = settled login_pending
            ++ [(Operation (Login (js "a@b.com") (js "secret")), Fulfilled r)].
Proof.
  split; [exact login_pending_reachable|].
  split; [reflexivity|].
  destruct (loading_brackets_operations sample_origin login_pending
              login_pending_reachable) as (_ & B & C).
  split; [apply C; reflexivity|].
  eapply B; reflexivity.
Defined.

Lemma C5_operations_leave_session_and_user_witness :
  Reachable sample_origin login_pending
  /\ AuthContext.session
       (auth (after sample_origin
                (login_pending_trace
                   ++ [Settle 0 (SettleAuth (Fulfilled ok_response))])))
     = AuthContext.session (auth login_pending)
  /\ AuthContext.user
       (auth (after sample_origin
                (login_pending_trace
                   ++ [Settle 0 (SettleAuth (Fulfilled ok_response))])))
     = AuthContext.user (auth login_pending).
Proof.
  split; [exact login_pending_reachable|].
  destruct (C5_operations_leave_session_and_user sample_origin login_pending
              login_pending_reachable) as (_ & B & _).
  eapply (B 0 (Login (js "a@b.com") (js "secret")) _
            (SettleAuth (Fulfilled ok_response))); reflexivity.
Defined.

Lemma C7_logout_when_logged_out_witness :
  AuthContext.session (auth ready) = None
  /\ exists s',
       exec sample_origin
         (Invoke Logout
            :: [AuthStateChange None]
            ++ [Settle (List.length (pending ready))
                  (SettleSignOut (Fulfilled {| signout_error := Some sample_error |}))])
         ready
       = Some s'
       /\ AuthContext.session (auth s') = None
       /\ AuthContext.isLoading (auth s') = false
       /\ settled s' = settled ready ++ [(Operation Logout, Fulfilled Undefined)]
       /\ pending s' = pending ready.
Proof.
  split; [reflexivity|].
  apply C7_logout_when_logged_out; [reflexivity|].
  constructor; [reflexivity|constructor].
Defined.

Lemma C8_unsubscribe_once_witness :
  Reachable sample_origin logged_in
  /\ mounted logged_in = true
  /\ unsubscribeCalls logged_in = 0
  /\ exists s1,
       step sample_origin Unmount logged_in = Some s1
       /\ unsubscribeCalls s1 = 1
       /\ forall tr s2,
           exec sample_origin tr s1 = Some s2 ->
           unsubscribeCalls s2 = 1
           /\ step sample_origin Unmount s2 = None
           /\ forall ses, step sample_origin (AuthStateChange ses) s2 = Some s2.
Proof.
  split; [exact logged_in_reachable|].
  split; [reflexivity|].
  apply C8_unsubscribe_once; [exact logged_in_reachable | reflexivity].
Defined.

(** * Properties of the rest of the application *)

(** ** Strings *)

Lemma jsstring_eqb_eq a b : jsstring_eqb a b = true <-> a = b.
Proof.
  revert b. induction a as [|x a IH]; intros [|y b]; simpl;
    try (split; [discriminate | discriminate]); [split; reflexivity|].
  rewrite andb_true_iff, N.eqb_eq, IH. split.
  - intros [-> ->]. reflexivity.
  - intros E. inversion E. split; reflexivity.
Qed.

Lemma falsy_nil s : falsy s = true <-> s = [].
Proof. destruct s; simpl; split; congruence. Qed.

Lemma startsWith_prefix p : forall s,
  startsWith p s = true <-> exists b, s = p ++ b.
Proof.
  induction p as [|x p IH]; intros s; simpl.
  - split; [intros _; exists s; reflexivity | reflexivity].
  - destruct s as [|y s].
    + split; [discriminate | intros [b E]; discriminate].
    + rewrite andb_true_iff, N.eqb_eq, IH. split.
      * intros [-> [b ->]]. exists b. reflexivity.
      * intros [b E]. inversion E; subst. split; [reflexivity | eauto].
Qed.

(** [includes] finds exactly the substrings. *)
Lemma includes_substring needle : forall s,
  includes needle s = true <-> exists a b, s = a ++ needle ++ b.
Proof.
  induction s as [|c s IH].
  - simpl. rewrite orb_false_r, startsWith_prefix. split.
    + intros [b E]. exists [], b. exact E.
    + intros (a & b & E). destruct a as [|x a]; [|discriminate].
      exists b. exact E.
  - cbn [includes]. rewrite orb_true_iff, startsWith_prefix, IH. split.
    + intros [[b E]|(a & b & E)].
      * exists [], b. exact E.
      * exists (c :: a), b. simpl. now rewrite E.
    + intros (a & b & E). destruct a as [|x a].
      * left. exists b. exact E.
      * right. inversion E; subst. exists a, b. reflexivity.
Qed.

(** ** Matching by derivatives agrees with the meaning of the expression *)

Lemma nullable_Matches r : nullable r = true <-> Matches r [].
Proof.
  split.
  - induction r; simpl; intros H; try discriminate.
    + constructor.
    + apply andb_true_iff in H. destruct H as [H1 H2].
      apply (@M_seq r1 r2 [] []); auto.
    + apply orb_true_iff in H. destruct H as [H|H].
      * apply M_alt_l; auto.
      * apply M_alt_r; auto.
    + constructor.
  - intros H. remember (@nil N) as s eqn:E.
    induction H; simpl; try discriminate; auto.
    + apply app_eq_nil in E. destruct E as [-> ->].
      rewrite IHMatches1, IHMatches2; auto.
    + rewrite IHMatches; auto.
    + rewrite IHMatches; auto. apply orb_true_r.
Qed.

Lemma deriv_sound c r : forall s, Matches (deriv c r) s -> Matches r (c :: s).
Proof.
  induction r; simpl; intros s H.
  - inversion H.
  - inversion H.
  - destruct (p c) eqn:E; inversion H; subst. now constructor.
  - destruct (nullable r1) eqn:E.
    + inversion H; subst.
      * match goal with M : Matches (Seq _ _) _ |- _ => inversion M; subst end.
        apply (@M_seq r1 r2 (c :: s1) s2); auto.
      * apply (@M_seq r1 r2 [] (c :: s)); auto.
        now apply nullable_Matches.
    + inversion H; subst. apply (@M_seq r1 r2 (c :: s1) s2); auto.
  - inversion H; subst.
    + apply M_alt_l; auto.
    + apply M_alt_r; auto.
  - inversion H; subst. apply (@M_star_more r (c :: s1) s2); auto.
Qed.

Lemma deriv_complete r cs :
  Matches r cs -> forall c s, cs = c :: s -> Matches (deriv c r) s.
Proof.
  induction 1; intros c0 s0 E; simpl; try discriminate.
  - inversion E; subst. rewrite H. constructor.
  - destruct s1 as [|d s1]; simpl in E.
    + subst s2.
      assert (N1 : nullable r1 = true) by now apply nullable_Matches.
      rewrite N1. apply M_alt_r. now apply IHMatches2.
    + inversion E; subst.
      destruct (nullable r1).
      * apply M_alt_l. constructor; auto.
      * constructor; auto.
  - apply M_alt_l; auto.
  - apply M_alt_r; auto.
  - destruct s1 as [|d s1]; simpl in E.
    + subst s2. now apply IHMatches2.
    + inversion E; subst. constructor; auto.
Qed.

Lemma regex_test_Matches s : forall r, regex_test r s = true <-> Matches r s.
Proof.
  induction s as [|c s IH]; intros r; simpl.
  - apply nullable_Matches.
  - rewrite IH. split.
    + apply deriv_sound.
    + intros H. eapply deriv_complete; eauto.
Qed.

Lemma Matches_Class_inv p s :
  Matches (Class p) s -> exists c, s = [c] /\ p c = true.
Proof. inversion 1; subst; eauto. Qed.

Lemma Matches_Seq_inv r1 r2 s :
  Matches (Seq r1 r2) s ->
  exists s1 s2, s = s1 ++ s2 /\ Matches r1 s1 /\ Matches r2 s2.
Proof. inversion 1; subst; eauto. Qed.

Lemma Matches_Star_Class p s :
  Matches (Star (Class p)) s -> forallb p s = true.
Proof.
  intros H. remember (Star (Class p)) as r eqn:E.
  induction H; try discriminate; [reflexivity|].
  inversion E; subst.
  apply Matches_Class_inv in H. destruct H as (c & -> & Hc).
  simpl. rewrite Hc. auto.
Qed.

Lemma Matches_Plus_Class p s :
  Matches (Plus (Class p)) s -> s <> [] /\ forallb p s = true.
Proof.
  intros H. apply Matches_Seq_inv in H. destruct H as (s1 & s2 & -> & H1 & H2).
  apply Matches_Class_inv in H1. destruct H1 as (c & -> & Hc).
  apply Matches_Star_Class in H2. simpl. rewrite Hc. split; [discriminate|auto].
Qed.

Lemma Plus_Class_Matches p s :
  s <> [] -> forallb p s = true -> Matches (Plus (Class p)) s.
Proof.
  destruct s as [|c s]; [congruence|]. intros _. simpl.
  intros H. apply andb_true_iff in H. destruct H as [Hc Hs].
  apply (@M_seq (Class p) (Star (Class p)) [c] s); [now constructor|].
  clear Hc. induction s as [|d s IH]; [constructor|].
  simpl in Hs. apply andb_true_iff in Hs. destruct Hs as [Hd Hs].
  apply (@M_star_more (Class p) [d] s); [now constructor | auto].
Qed.

Lemma Matches_Exactly_Class p n : forall s,
  Matches (Exactly n (Class p)) s ->
  forallb p s = true /\ List.length s = n.
Proof.
  induction n as [|n IH]; simpl; intros s H.
  - inversion H; subst. split; reflexivity.
  - apply Matches_Seq_inv in H. destruct H as (s1 & s2 & -> & H1 & H2).
    apply Matches_Class_inv in H1. destruct H1 as (c & -> & Hc).
    destruct (IH s2 H2) as [F L]. simpl. rewrite Hc, F, L. split; reflexivity.
Qed.

Lemma Matches_UpTo_Class p n : forall s,
  Matches (UpTo n (Class p)) s ->
  forallb p s = true /\ List.length s <= n.
Proof.
  induction n as [|n IH]; simpl; intros s H.
  - inversion H; subst. split; [reflexivity | simpl; lia].
  - inversion H; subst.
    + match goal with M : Matches Eps _ |- _ => inversion M; subst end.
      split; [reflexivity | simpl; lia].
    + match goal with M : Matches (Seq _ _) _ |- _ =>
        apply Matches_Seq_inv in M; destruct M as (s1 & s2 & -> & H1 & H2) end.
      apply Matches_Class_inv in H1. destruct H1 as (c & -> & Hc).
      destruct (IH s2 H2) as [F L]. simpl. rewrite Hc, F. split; [reflexivity|lia].
Qed.

Lemma Matches_Between_Class p lo hi s :
  Matches (Between lo hi (Class p)) s ->
  forallb p s = true /\ lo <= List.length s <= lo + (hi - lo).
Proof.
  intros H. apply Matches_Seq_inv in H. destruct H as (s1 & s2 & -> & H1 & H2).
  apply Matches_Exactly_Class in H1. destruct H1 as [F1 L1].
  apply Matches_UpTo_Class in H2. destruct H2 as [F2 L2].
  rewrite forallb_app, F1, F2, length_app. split; [reflexivity | lia].
Qed.

Lemma Exactly_Class_Matches p s :
  forallb p s = true -> Matches (Exactly (List.length s) (Class p)) s.
Proof.
  induction s as [|c s IH]; simpl; intros H; [constructor|].
  apply andb_true_iff in H. destruct H as [Hc Hs].
  apply (@M_seq (Class p) _ [c] s); [now constructor | auto].
Qed.

Lemma UpTo_Class_Matches p n : forall s,
  forallb p s = true -> List.length s <= n -> Matches (UpTo n (Class p)) s.
Proof.
  induction n as [|n IH]; intros [|c s] F L; simpl in *; try lia.
  - constructor.
  - apply M_alt_l. constructor.
  - apply andb_true_iff in F. destruct F as [Hc Hs].
    apply M_alt_r. apply (@M_seq (Class p) _ [c] s); [now constructor|].
    apply IH; [auto | lia].
Qed.

Lemma Between_Class_Matches p lo hi s :
  forallb p s = true -> lo <= List.length s <= hi ->
  Matches (Between lo hi (Class p)) s.
Proof.
  intros F [L1 L2]. unfold Between.
  rewrite <- (firstn_skipn lo s).
  rewrite <- (firstn_skipn lo s), forallb_app in F.
  apply andb_true_iff in F. destruct F as [F1 F2].
  constructor.
  - replace lo with (List.length (firstn lo s)) at 1
      by (rewrite length_firstn; lia).
    now apply Exactly_Class_Matches.
  - apply UpTo_Class_Matches; [auto|]. rewrite length_skipn. lia.
Qed.

(** ** validateEmail of RegisterForm *)

Lemma eqb_AT c : (AT =? c)%N = true -> c = AT.
Proof. intros H. apply N.eqb_eq in H. auto. Qed.

Lemma eqb_DOT c : (DOT =? c)%N = true -> c = DOT.
Proof. intros H. apply N.eqb_eq in H. auto. Qed.

Lemma Matches_labels d :
  Matches (Star (Seq (Plus (Class isWordOrHyphen)) (Class (N.eqb DOT)))) d ->
  exists labels, d = dotted labels /\ Forall label_ok labels.
Proof.
  intros H.
  remember (Star (Seq (Plus (Class isWordOrHyphen)) (Class (N.eqb DOT)))) as r eqn:E.
  induction H; try discriminate.
  - exists []. split; [reflexivity | constructor].
  - inversion E; subst. destruct (IHMatches2 eq_refl) as (labels & -> & F).
    apply Matches_Seq_inv in H. destruct H as (l & d & -> & Hl & Hd).
    apply Matches_Plus_Class in Hl.
    apply Matches_Class_inv in Hd. destruct Hd as (c & -> & Hc).
    apply eqb_DOT in Hc. subst c.
    exists (l :: labels). split; [reflexivity|]. constructor; auto.
Qed.

Lemma labels_Matches labels :
  Forall label_ok labels ->
  Matches (Star (Seq (Plus (Class isWordOrHyphen)) (Class (N.eqb DOT))))
    (dotted labels).
Proof.
  induction 1 as [|l labels [Hn Hf] _ IH]; [constructor|].
  change (dotted (l :: labels)) with ((l ++ [DOT]) ++ dotted labels).
  apply (@M_star_more _ (l ++ [DOT]) (dotted labels)); [|exact IH].
  apply (@M_seq _ _ l [DOT]).
  - now apply Plus_Class_Matches.
  - constructor. reflexivity.
Qed.

(** The strings emailRegex stands for. *)
Lemma emailRegex_shape s :
  Matches RegisterForm.emailRegex s <->
  exists loc labels tld,
    s = loc ++ [AT] ++ dotted labels ++ tld
    /\ loc <> [] /\ forallb isLocalChar loc = true
    /\ labels <> [] /\ Forall label_ok labels
    /\ forallb isWordOrHyphen tld = true
    /\ 2 <= List.length tld <= 4.
Proof.
  unfold RegisterForm.emailRegex. split.
  - intros H.
    apply Matches_Seq_inv in H. destruct H as (loc & s1 & -> & Hloc & H).
    apply Matches_Seq_inv in H. destruct H as (a & s2 & -> & Ha & H).
    apply Matches_Seq_inv in H. destruct H as (d & tld & -> & Hd & Ht).
    apply Matches_Plus_Class in Hloc. destruct Hloc as [Ln Lf].
    apply Matches_Class_inv in Ha. destruct Ha as (c & -> & Hc).
    apply eqb_AT in Hc. subst c.
    apply Matches_Between_Class in Ht. destruct Ht as [Tf Tl].
    apply Matches_Seq_inv in Hd. destruct Hd as (d1 & d2 & -> & H1 & H2).
    apply Matches_labels in H2. destruct H2 as (labels & -> & F).
    apply Matches_Seq_inv in H1. destruct H1 as (l & dt & -> & Hl & Hdt).
    apply Matches_Plus_Class in Hl.
    apply Matches_Class_inv in Hdt. destruct Hdt as (c & -> & Hc).
    apply eqb_DOT in Hc. subst c.
    exists loc, (l :: labels), tld.
    repeat split; auto; try discriminate; try lia; try (constructor; auto).
  - intros (loc & labels & tld & -> & Ln & Lf & Nn & F & Tf & Tl).
    constructor; [now apply Plus_Class_Matches|].
    constructor; [constructor; reflexivity|].
    constructor; [|now apply Between_Class_Matches].
    destruct labels as [|l labels]; [congruence|].
    inversion F as [|? ? [Hn Hf] F']; subst.
    change (dotted (l :: labels)) with ((l ++ [DOT]) ++ dotted labels).
    constructor; [|now apply labels_Matches].
    apply (@M_seq _ _ l [DOT]); [now apply Plus_Class_Matches|].
    constructor. reflexivity.
Qed.

Lemma isWordOrHyphen_isLocalChar c :
  isWordOrHyphen c = true -> isLocalChar c = true.
Proof. unfold isLocalChar, isWordOrHyphen. intros ->. reflexivity. Qed.

Lemma forallb_weaken (p q : N -> bool) l :
  (forall c, p c = true -> q c = true) ->
  forallb p l = true -> forallb q l = true.
Proof.
  intros W. induction l as [|c l IH]; simpl; [auto|].
  intros H. apply andb_true_iff in H. destruct H as [Hc Hl].
  rewrite (W c Hc), IH; auto.
Qed.

Lemma dotted_local labels :
  Forall label_ok labels -> forallb isLocalChar (dotted labels) = true.
Proof.
  induction 1 as [|l labels [_ Hf] _ IH]; [reflexivity|].
  change (dotted (l :: labels)) with ((l ++ [DOT]) ++ dotted labels).
  rewrite !forallb_app, IH.
  rewrite (forallb_weaken isWordOrHyphen isLocalChar l
             isWordOrHyphen_isLocalChar Hf).
  reflexivity.
Qed.

Lemma dotted_ends labels :
  labels <> [] -> exists d, dotted labels = d ++ [DOT].
Proof.
  intros H. destruct (exists_last H) as (ls & l & ->).
  unfold dotted. rewrite map_app, concat_app. simpl.
  rewrite app_nil_r. exists (List.concat (map (fun l0 => l0 ++ [DOT]) ls) ++ l).
  now rewrite app_assoc.
Qed.

Lemma count_none (p : N -> bool) x l :
  p x = false -> forallb p l = true -> count_occ N.eq_dec l x = 0.
Proof.
  intros Hx. induction l as [|c l IH]; simpl; [auto|].
  intros H. apply andb_true_iff in H. destruct H as [Hc Hl].
  destruct (N.eq_dec c x) as [->|_]; [congruence | auto].
Qed.

Lemma untilDot_app a b :
  forallb isWordOrHyphen a = true -> untilDot (a ++ DOT :: b) = a.
Proof.
  induction a as [|c a IH]; simpl; [reflexivity|].
  intros H. apply andb_true_iff in H. destruct H as [Hc Ha].
  destruct (c =? DOT)%N eqn:E.
  - apply N.eqb_eq in E. subst c. discriminate.
  - now rewrite IH.
Qed.

Lemma forallb_reverse (p : N -> bool) l : forallb p (rev l) = forallb p l.
Proof.
  induction l as [|c l IH]; simpl; [reflexivity|].
  rewrite forallb_app, IH. simpl. rewrite andb_true_r. apply andb_comm.
Qed.

Lemma lastLabel_app p tld :
  forallb isWordOrHyphen tld = true -> lastLabel (p ++ DOT :: tld) = tld.
Proof.
  intros H. unfold lastLabel.
  rewrite rev_app_distr. simpl. rewrite <- app_assoc. simpl.
  rewrite untilDot_app; [apply rev_involutive|].
  now rewrite forallb_reverse.
Qed.

(** X1: validateEmail accepts exactly the strings made of a non-empty
    local part of letters, digits, underscores, hyphens and dots, one at
    sign, one or more non-empty labels of letters, digits, underscores
    and hyphens, each followed by a dot, and a last label of two to four
    such characters. *)
Theorem validateEmail_language email :
  RegisterForm.validateEmail email = true <->
  exists loc labels tld,
    email = loc ++ [AT] ++ dotted labels ++ tld
    /\ loc <> [] /\ forallb isLocalChar loc = true
    /\ labels <> [] /\ Forall label_ok labels
    /\ forallb isWordOrHyphen tld = true
    /\ 2 <= List.length tld <= 4.
Proof.
  unfold RegisterForm.validateEmail. rewrite regex_test_Matches.
  apply emailRegex_shape.
Qed.

Lemma dotted_length labels :
  labels <> [] -> Forall label_ok labels -> 2 <= List.length (dotted labels).
Proof.
  intros Nn F. destruct labels as [|l labels]; [congruence|].
  inversion F as [|? ? [Hn _] _]; subst.
  change (dotted (l :: labels)) with ((l ++ [DOT]) ++ dotted labels).
  rewrite !length_app. simpl. destruct l; [congruence | simpl; lia].
Qed.

(** An accepted address, cut at its at sign and at its last dot. *)
Lemma accepted_parts email :
  RegisterForm.validateEmail email = true ->
  exists loc d tld,
    email = (loc ++ [AT] ++ d) ++ DOT :: tld
    /\ loc <> [] /\ forallb isLocalChar loc = true
    /\ d <> [] /\ forallb isLocalChar d = true
    /\ forallb isWordOrHyphen tld = true
    /\ 2 <= List.length tld <= 4.
Proof.
  intros H. unfold RegisterForm.validateEmail in H.
  apply regex_test_Matches, emailRegex_shape in H.
  destruct H as (loc & labels & tld & -> & Ln & Lf & Nn & F & Tf & Tl).
  pose proof (dotted_local labels F) as Df.
  pose proof (dotted_length labels Nn F) as Dl.
  destruct (dotted_ends labels Nn) as [d Ed].
  rewrite Ed in Df, Dl. rewrite Ed.
  rewrite forallb_app in Df. apply andb_true_iff in Df. destruct Df as [Df _].
  rewrite length_app in Dl. simpl in Dl.
  exists loc, d, tld.
  split; [rewrite <- !app_assoc; reflexivity|].
  split; [exact Ln|]. split; [exact Lf|].
  split; [destruct d; [simpl in Dl; lia | discriminate]|].
  split; [exact Df|]. split; [exact Tf | exact Tl].
Qed.

Lemma accepted_one_at email :
  RegisterForm.validateEmail email = true ->
  count_occ N.eq_dec email AT = 1.
Proof.
  intros H.
  destruct (accepted_parts email H) as (loc & d & tld & -> & _ & Lf & _ & Df & Tf & _).
  assert (Tloc : forallb isLocalChar tld = true)
    by (eapply forallb_weaken; [apply isWordOrHyphen_isLocalChar | exact Tf]).
  rewrite !count_occ_app. simpl.
  rewrite (count_none isLocalChar AT loc eq_refl Lf).
  rewrite (count_none isLocalChar AT d eq_refl Df).
  rewrite (count_none isLocalChar AT tld eq_refl Tloc). reflexivity.
Qed.

Lemma accepted_alphabet email :
  RegisterForm.validateEmail email = true ->
  forallb (fun c => isLocalChar c || (c =? AT)%N) email = true.
Proof.
  intros H.
  destruct (accepted_parts email H) as (loc & d & tld & -> & _ & Lf & _ & Df & Tf & _).
  assert (Tloc : forallb isLocalChar tld = true)
    by (eapply forallb_weaken; [apply isWordOrHyphen_isLocalChar | exact Tf]).
  assert (W : forall l, forallb isLocalChar l = true ->
              forallb (fun c => isLocalChar c || (c =? AT)%N) l = true).
  { intros l. apply forallb_weaken. intros c ->. reflexivity. }
  rewrite !forallb_app. simpl.
  rewrite (W loc Lf), (W d Df), (W tld Tloc). reflexivity.
Qed.

Lemma accepted_last_label email :
  RegisterForm.validateEmail email = true ->
  forallb isWordOrHyphen (lastLabel email) = true
  /\ 2 <= List.length (lastLabel email) <= 4.
Proof.
  intros H.
  destruct (accepted_parts email H) as (loc & d & tld & -> & _ & _ & _ & _ & Tf & Tl).
  rewrite lastLabel_app by exact Tf. split; [exact Tf | exact Tl].
Qed.

Lemma accepted_length email :
  RegisterForm.validateEmail email = true -> 6 <= List.length email.
Proof.
  intros H.
  destruct (accepted_parts email H) as (loc & d & tld & -> & Ln & _ & Dn & _ & _ & Tl).
  rewrite !length_app. simpl.
  assert (1 <= List.length loc) by (destruct loc; [congruence | simpl; lia]).
  assert (1 <= List.length d) by (destruct d; [congruence | simpl; lia]).
  lia.
Qed.

(** X2: an address that validateEmail accepts has exactly one at sign,
    consists of letters, digits, underscores, hyphens, dots and that at
    sign only, has two to four characters after its last dot, and is at
    least six characters long. *)
Theorem validateEmail_accepted email :
  RegisterForm.validateEmail email = true ->
  count_occ N.eq_dec email AT = 1
  /\ forallb (fun c => isLocalChar c || (c =? AT)%N) email = true
  /\ forallb isWordOrHyphen (lastLabel email) = true
  /\ 2 <= List.length (lastLabel email) <= 4
  /\ 6 <= List.length email.
Proof.
  intros H.
  split; [now apply accepted_one_at|].
  split; [now apply accepted_alphabet|].
  destruct (accepted_last_label email H) as [F L].
  split; [exact F|]. split; [exact L|].
  now apply accepted_length.
Qed.

(** ** RegisterForm: handleSubmit *)

Lemma validation_spec f :
  snd (RegisterForm.validation f) = true <->
  (RegisterForm.email f <> []
   /\ RegisterForm.validateEmail (RegisterForm.email f) = true
   /\ RegisterForm.password f <> []
   /\ RegisterForm.confirmPassword f <> []
   /\ RegisterForm.password f = RegisterForm.confirmPassword f).
Proof.
  unfold RegisterForm.validation.
  destruct (RegisterForm.email f) as [|c em];
  destruct (RegisterForm.password f) as [|d pw];
  destruct (RegisterForm.confirmPassword f) as [|e cp].
  all: cbn [falsy negb andb].
  all: try destruct (RegisterForm.validateEmail _) eqn:V.
  all: try destruct (jsstring_eqb _ _) eqn:Q.
  all: cbn [negb andb snd fst].
  all: split; [intros H | intros (H1 & H2 & H3 & H4 & H5)];
    try discriminate; try congruence.
  - apply jsstring_eqb_eq in Q. repeat split; try discriminate; auto.
  - apply jsstring_eqb_eq in H5. congruence.
Qed.

Lemma validation_valid f :
  snd (RegisterForm.validation f) = true ->
  RegisterForm.validation f
  = ({| RegisterForm.NewErrors.email := [];
        RegisterForm.NewErrors.password := [];
        RegisterForm.NewErrors.confirmPassword := [] |}, true).
Proof.
  unfold RegisterForm.validation.
  destruct (RegisterForm.email f) as [|c em];
  destruct (RegisterForm.password f) as [|d pw];
  destruct (RegisterForm.confirmPassword f) as [|e cp].
  all: cbn [falsy negb andb].
  all: try destruct (RegisterForm.validateEmail _) eqn:V.
  all: try destruct (jsstring_eqb _ _) eqn:Q.
  all: cbn [negb andb snd fst]; intros H; try discriminate; reflexivity.
Qed.

Lemma validation_invalid f :
  snd (RegisterForm.validation f) = false ->
  RegisterForm.NewErrors.email (fst (RegisterForm.validation f)) <> []
  \/ RegisterForm.NewErrors.password (fst (RegisterForm.validation f)) <> []
  \/ RegisterForm.NewErrors.confirmPassword (fst (RegisterForm.validation f))
     <> [].
Proof.
  unfold RegisterForm.validation.
  destruct (RegisterForm.email f) as [|c em];
  destruct (RegisterForm.password f) as [|d pw];
  destruct (RegisterForm.confirmPassword f) as [|e cp].
  all: cbn [falsy negb andb].
  all: try destruct (RegisterForm.validateEmail _) eqn:V.
  all: try destruct (jsstring_eqb _ _) eqn:Q.
  all: cbn [negb andb snd fst]; intros H; try discriminate H.
  all: first [ left; vm_compute; discriminate
             | right; left; vm_compute; discriminate
             | right; right; vm_compute; discriminate ].
Qed.

(** Whether the rejected form shows a message: it does not exactly when
    the empty password is the only failed check. *)
Lemma validation_paragraphs f :
  RegisterForm.errorParagraphs
    (RegisterForm.spread (fst (RegisterForm.validation f)) []) = []
  <-> (snd (RegisterForm.validation f) = true
       \/ (RegisterForm.email f <> []
           /\ RegisterForm.validateEmail (RegisterForm.email f) = true
           /\ RegisterForm.password f = []
           /\ RegisterForm.confirmPassword f <> [])).
Proof.
  unfold RegisterForm.validation.
  destruct (RegisterForm.email f) as [|c em];
  destruct (RegisterForm.password f) as [|d pw];
  destruct (RegisterForm.confirmPassword f) as [|e cp].
  all: cbn [falsy negb andb].
  all: try destruct (RegisterForm.validateEmail _) eqn:V.
  all: try destruct (jsstring_eqb _ _) eqn:Q.
  all: cbn [negb andb snd fst].
  all: split.
  all: try (intros [H|(H1 & H2 & H3 & H4)];
            try discriminate H; try discriminate H2; try discriminate H3;
            try (exfalso; apply H1; reflexivity);
            try (exfalso; apply H4; reflexivity);
            vm_compute; reflexivity).
  all: intros H; try (vm_compute in H; discriminate H); clear H.
  all: first [ left; reflexivity
             | right; repeat split; first [discriminate | reflexivity] ].
Qed.


(** X3: handleSubmit of RegisterForm reaches the provider exactly when
    email is non-empty and accepted by validateEmail, password and
    confirmPassword are non-empty and equal.  Then it has set
    isSubmitting, cleared the errors and is waiting for signUp with the
    email, the password and the metadata of the two names.  Otherwise it
    ends at once with the messages of the checks as errors, at least one
    of them non-empty, and nothing else changed; the form then shows a
    message unless the empty password is the only failed check, for
    which it has no paragraph. *)
Theorem handleSubmit_gate origin f w :
  (snd (RegisterForm.validation f) = true <->
     RegisterForm.email f <> []
     /\ RegisterForm.validateEmail (RegisterForm.email f) = true
     /\ RegisterForm.password f <> []
     /\ RegisterForm.confirmPassword f <> []
     /\ RegisterForm.password f = RegisterForm.confirmPassword f)
  /\ signUp_request (RegisterForm.handleSubmit origin f)
     = (if snd (RegisterForm.validation f)
        then Some (RegisterForm.email f, RegisterForm.password f,
                   {| data := authService.metadata
                                (Some (RegisterForm.firstName f))
                                (Some (RegisterForm.lastName f));
                      emailRedirectTo := origin ++ js "/login" |})
        else None)
  /\ completion (snd (run (RegisterForm.handleSubmit origin f) w))
     = (if snd (RegisterForm.validation f) then None else Some (Fulfilled tt))
  /\ store (fst (run (RegisterForm.handleSubmit origin f) w))
     = (if snd (RegisterForm.validation f)
        then {| form := RegisterForm.with_errors no_errors
                          (RegisterForm.with_isSubmitting true (form (store w)));
                provider := AuthContext.setIsLoading true (provider (store w));
                navigations := navigations (store w) |}
        else {| form := RegisterForm.with_errors
                          (RegisterForm.spread
                             (fst (RegisterForm.validation f)) [])
                          (form (store w));
                provider := provider (store w);
                navigations := navigations (store w) |})
  /\ (snd (RegisterForm.validation f) = false ->
      RegisterForm.NewErrors.email (fst (RegisterForm.validation f)) <> []
      \/ RegisterForm.NewErrors.password (fst (RegisterForm.validation f)) <> []
      \/ RegisterForm.NewErrors.confirmPassword
           (fst (RegisterForm.validation f)) <> [])
  /\ (RegisterForm.errorParagraphs
        (RegisterForm.spread (fst (RegisterForm.validation f)) []) = []
      <-> (snd (RegisterForm.validation f) = true
           \/ (RegisterForm.email f <> []
               /\ RegisterForm.validateEmail (RegisterForm.email f) = true
               /\ RegisterForm.password f = []
               /\ RegisterForm.confirmPassword f <> []))).
Proof.
  split; [apply validation_spec|].
  split; [|split; [|split; [|split;
    [apply validation_invalid | apply validation_paragraphs]]]].
  - unfold RegisterForm.handleSubmit.
    destruct (RegisterForm.validation f) as [ne ok] eqn:E.
    destruct ok.
    + pose proof (validation_valid f) as V. rewrite E in V.
      specialize (V eq_refl). inversion V; subst. reflexivity.
    + reflexivity.
  - unfold RegisterForm.handleSubmit.
    destruct (RegisterForm.validation f) as [ne ok] eqn:E.
    destruct ok; reflexivity.
  - unfold RegisterForm.handleSubmit.
    destruct (RegisterForm.validation f) as [ne ok] eqn:E.
    destruct ok.
    + pose proof (validation_valid f) as V. rewrite E in V.
      specialize (V eq_refl). inversion V; subst. reflexivity.
    + reflexivity.
Qed.

(** X4: a valid RegisterForm submission ends in every case: the
    promise of handleSubmit is fulfilled, isSubmitting and the
    provider's isLoading are false.  Without an error it clears the
    eight fields and navigates to /login; with an error it stays, keeps
    the fields and stores one message, in the field chosen by the text
    of the error; the form shows that message, except the one for an
    error text with Password, which goes to errors.password and has no
    paragraph; when signUp throws, the message shown is the one of
    registerUser. *)
Theorem handleSubmit_outcome origin f o w :
  snd (RegisterForm.validation f) = true ->
  exists w',
    settle_task (RegisterForm.handleSubmit origin f) (SettleAuth o) w
    = Some (w', Fulfilled tt)
    /\ RegisterForm.isSubmitting (form (store w')) = false
    /\ provider (store w')
       = AuthContext.setIsLoading false (provider (store w))
    /\ match o with
       | Fulfilled {| auth_error := None |} =>
           navigations (store w') = navigations (store w) ++ [js "/login"]
           /\ form (store w')
              = {| RegisterForm.firstName := [];
                   RegisterForm.lastName := [];
                   RegisterForm.email := [];
                   RegisterForm.password := [];
                   RegisterForm.confirmPassword := [];
                   RegisterForm.phone := [];
                   RegisterForm.address := [];
                   RegisterForm.addressdetails := [];
                   RegisterForm.isSubmitting := false;
                   RegisterForm.errors := RegisterForm.errors (form (store w)) |}
       | Fulfilled {| auth_error := Some err |} =>
           navigations (store w') = navigations (store w)
           /\ form (store w')
              = RegisterForm.with_errors
                  (if includes (js "already registered") (message err) then
                     {| RegisterForm.Errors.email :=
                          utf8 "Este correo electrónico ya está registrado.";
                        RegisterForm.Errors.password := [];
                        RegisterForm.Errors.confirmPassword := [];
                        RegisterForm.Errors.general := [] |}
                   else if includes (js "Password") (message err) then
                     {| RegisterForm.Errors.email := [];
                        RegisterForm.Errors.password :=
                          utf8 "La contraseña debe tener al menos 6 caracteres.";
                        RegisterForm.Errors.confirmPassword := [];
                        RegisterForm.Errors.general := [] |}
                   else
                     {| RegisterForm.Errors.email := [];
                        RegisterForm.Errors.password := [];
                        RegisterForm.Errors.confirmPassword := [];
                        RegisterForm.Errors.general :=
                          or_else (message err)
                            (js "Error al registrar. Por favor, intenta de nuevo.") |})
                  (RegisterForm.with_isSubmitting false (form (store w)))
           /\ RegisterForm.errorParagraphs
                (RegisterForm.errors (form (store w')))
              = (if includes (js "already registered") (message err) then
                   [utf8 "Este correo electrónico ya está registrado."]
                 else if includes (js "Password") (message err) then []
                 else [or_else (message err)
                         (js "Error al registrar. Por favor, intenta de nuevo.")])
       | Rejected _ =>
           navigations (store w') = navigations (store w)
           /\ form (store w')
              = RegisterForm.with_errors
                  {| RegisterForm.Errors.email := [];
                     RegisterForm.Errors.password := [];
                     RegisterForm.Errors.confirmPassword := [];
                     RegisterForm.Errors.general := authService.register_failed |}
                  (RegisterForm.with_isSubmitting false (form (store w)))
           /\ RegisterForm.errorParagraphs
                (RegisterForm.errors (form (store w')))
              = [authService.register_failed]
       end.
Proof.
  intros V. unfold RegisterForm.handleSubmit.
  rewrite (validation_valid f V). unfold settle_task. simpl.
  destruct o as [[d [err|]]|e]; simpl.
  - destruct (includes (js "already registered") (message err));
      [|destruct (includes (js "Password") (message err))];
      simpl; eexists; (split; [reflexivity|]);
      (split; [reflexivity|]); (split; [reflexivity|]);
      (split; [reflexivity|]); (split; [reflexivity|]).
    + vm_compute; reflexivity.
    + reflexivity.
    + unfold RegisterForm.errorParagraphs, RegisterForm.errorParagraph, or_else.
      cbn [RegisterForm.errors RegisterForm.with_errors
           RegisterForm.Errors.email RegisterForm.Errors.general
           RegisterForm.Errors.confirmPassword falsy app].
      destruct (message err); reflexivity.
  - eexists. split; [reflexivity|]. repeat split.
  - eexists. split; [reflexivity|].
    split; [reflexivity|]. split; [reflexivity|].
    split; [reflexivity|]. split; [reflexivity|].
    vm_compute; reflexivity.
Qed.

Lemma rejected_email_blocks f :
  RegisterForm.validateEmail (RegisterForm.email f) = false ->
  snd (RegisterForm.validation f) = false
  /\ RegisterForm.NewErrors.email (fst (RegisterForm.validation f)) <> [].
Proof.
  intros V. unfold RegisterForm.validation. rewrite V.
  destruct (RegisterForm.email f) as [|c em];
  destruct (RegisterForm.password f) as [|d pw];
  destruct (RegisterForm.confirmPassword f) as [|e cp].
  all: cbn [falsy negb andb].
  all: try destruct (jsstring_eqb _ _).
  all: cbn [negb andb snd fst]; split; try reflexivity; vm_compute; discriminate.
Qed.

(** X16: RegisterForm never sends to the provider an email with a
    character other than a letter, digit, underscore, hyphen, dot or at
    sign (a plus sign, a space, an accented letter), with no or more
    than one at sign, or with fewer than two or more than four
    characters after its last dot: handleSubmit ends at once with a
    message on the email field. *)
Theorem handleSubmit_refuses_address origin f :
  forallb (fun c => isLocalChar c || (c =? AT)%N) (RegisterForm.email f) = false
  \/ count_occ N.eq_dec (RegisterForm.email f) AT <> 1
  \/ List.length (lastLabel (RegisterForm.email f)) < 2
  \/ 4 < List.length (lastLabel (RegisterForm.email f)) ->
  signUp_request (RegisterForm.handleSubmit origin f) = None
  /\ completion (residual (RegisterForm.handleSubmit origin f))
     = Some (Fulfilled tt)
  /\ RegisterForm.NewErrors.email (fst (RegisterForm.validation f)) <> [].
Proof.
  intros H.
  assert (V : RegisterForm.validateEmail (RegisterForm.email f) = false).
  { destruct (RegisterForm.validateEmail (RegisterForm.email f)) eqn:E;
      [|reflexivity].
    pose proof (accepted_alphabet _ E) as F.
    pose proof (accepted_one_at _ E) as C.
    destruct (accepted_last_label _ E) as [_ L].
    destruct H as [H|[H|[H|H]]]; [congruence | contradiction | lia | lia]. }
  destruct (rejected_email_blocks f V) as [I M].
  split; [|split; [|exact M]].
  - unfold RegisterForm.handleSubmit.
    destruct (RegisterForm.validation f) as [ne ok]. simpl in I. subst ok.
    reflexivity.
  - unfold RegisterForm.handleSubmit.
    destruct (RegisterForm.validation f) as [ne ok]. simpl in I. subst ok.
    reflexivity.
Qed.

(** ** LoginForm: handleLogin *)

(** X5: handleLogin of LoginForm clears the error and reaches the
    provider exactly when email and password are both non-empty; it has
    then set isSubmitting and is waiting for signInWithPassword with that
    email and password.  With an empty field it ends at once with the
    message that asks to fill in all fields, and touches neither
    isSubmitting, the provider's state nor the router. *)
Theorem handleLogin_gate f w :
  signIn_request (LoginForm.handleLogin f)
  = (if falsy (LoginForm.email f) || falsy (LoginForm.password f)
     then None
     else Some (LoginForm.email f, LoginForm.password f))
  /\ completion (snd (run (LoginForm.handleLogin f) w))
     = (if falsy (LoginForm.email f) || falsy (LoginForm.password f)
        then Some (Fulfilled tt)
        else None)
  /\ store (fst (run (LoginForm.handleLogin f) w))
     = (if falsy (LoginForm.email f) || falsy (LoginForm.password f)
        then {| form := LoginForm.with_error
                          (js "Por favor, completa todos los campos.")
                          (form (store w));
                provider := provider (store w);
                navigations := navigations (store w) |}
        else {| form := LoginForm.with_isSubmitting true
                          (LoginForm.with_error [] (form (store w)));
                provider := AuthContext.setIsLoading true (provider (store w));
                navigations := navigations (store w) |}).
Proof.
  unfold LoginForm.handleLogin.
  destruct (falsy (LoginForm.email f) || falsy (LoginForm.password f));
    repeat split.
Qed.

(** X6: a LoginForm submission with both fields filled ends in every
    case: the promise of handleLogin is fulfilled, isSubmitting and the
    provider's isLoading are false.  Without an error it navigates to /
    and changes nothing else of the form; with an error it does not
    navigate and shows a non-empty message chosen by the text of
    the error; when signInWithPassword throws, the message shown is the
    one of loginUser. *)
Theorem handleLogin_outcome f o w :
  LoginForm.email f <> [] ->
  LoginForm.password f <> [] ->
  exists w',
    settle_task (LoginForm.handleLogin f) (SettleAuth o) w
    = Some (w', Fulfilled tt)
    /\ LoginForm.isSubmitting (form (store w')) = false
    /\ provider (store w')
       = AuthContext.setIsLoading false (provider (store w))
    /\ match o with
       | Fulfilled {| auth_error := None |} =>
           navigations (store w') = navigations (store w) ++ [js "/"]
           /\ form (store w')
              = LoginForm.with_isSubmitting false (form (store w))
       | Fulfilled {| auth_error := Some err |} =>
           navigations (store w') = navigations (store w)
           /\ form (store w')
              = LoginForm.with_error
                  (if includes (js "Invalid login credentials") (message err)
                   then utf8 "Correo electrónico o contraseña incorrectos."
                   else if includes (js "Email not confirmed") (message err)
                   then utf8 "Por favor, verifica tu correo electrónico antes de iniciar sesión."
                   else or_else (message err)
                          (utf8 "Error al iniciar sesión. Por favor, intenta de nuevo."))
                  (LoginForm.with_isSubmitting false (form (store w)))
           /\ LoginForm.error (form (store w')) <> []
       | Rejected _ =>
           navigations (store w') = navigations (store w)
           /\ form (store w')
              = LoginForm.with_error authService.login_failed
                  (LoginForm.with_isSubmitting false (form (store w)))
       end.
Proof.
  intros He Hp. unfold LoginForm.handleLogin.
  destruct (LoginForm.email f) as [|c em]; [congruence|].
  destruct (LoginForm.password f) as [|d pw]; [congruence|].
  unfold settle_task. simpl.
  destruct o as [[dt [err|]]|e]; simpl.
  - destruct (includes (js "Invalid login credentials") (message err));
      [|destruct (includes (js "Email not confirmed") (message err))];
      simpl; eexists; (split; [reflexivity|]); repeat split;
      try discriminate.
    destruct (message err); discriminate.
  - eexists. split; [reflexivity|]. repeat split.
  - eexists. split; [reflexivity|]. repeat split.
Qed.

(** ** The route guards *)

(** X7: outside an AuthProvider both guards throw.  Under a provider in
    any reachable state: while isLoading they both return the loading
    text and call nothing; otherwise ProtectedRoute returns its children
    exactly when a session is present, and else returns null and calls
    navigate with /login in its render body; PublicRoute returns its
    children exactly when no session is present, and else returns null
    and calls navigate with /. *)
Theorem routes_follow_session origin s :
  Reachable origin s ->
  Routes.ProtectedRoute None = Routes.PublicRoute None
  /\ (exists e, Routes.ProtectedRoute None = inl e)
  /\ (AuthContext.isLoading (auth s) = true ->
      Routes.ProtectedRoute (Some (AuthContext.value (auth s)))
      = inr {| Routes.output := Routes.Cargando; Routes.navigateCall := None |}
      /\ Routes.PublicRoute (Some (AuthContext.value (auth s)))
         = inr {| Routes.output := Routes.Cargando; Routes.navigateCall := None |})
  /\ (AuthContext.isLoading (auth s) = false ->
      match AuthContext.session (auth s) with
      | Some _ =>
          Routes.ProtectedRoute (Some (AuthContext.value (auth s)))
          = inr {| Routes.output := Routes.Children; Routes.navigateCall := None |}
          /\ Routes.PublicRoute (Some (AuthContext.value (auth s)))
             = inr {| Routes.output := Routes.Null;
                      Routes.navigateCall := Some (js "/") |}
      | None =>
          Routes.ProtectedRoute (Some (AuthContext.value (auth s)))
          = inr {| Routes.output := Routes.Null;
                   Routes.navigateCall := Some (js "/login") |}
          /\ Routes.PublicRoute (Some (AuthContext.value (auth s)))
             = inr {| Routes.output := Routes.Children; Routes.navigateCall := None |}
      end).
Proof.
  intros R. apply Reachable_Invariant in R. destruct R as [_ U _ _].
  split; [reflexivity|]. split; [eexists; reflexivity|].
  unfold Routes.ProtectedRoute, Routes.PublicRoute. simpl.
  split.
  - intros ->. split; reflexivity.
  - intros ->. rewrite U.
    destruct (AuthContext.session (auth s)); split; reflexivity.
Qed.

(** ** Button *)

(** X8: the class of a Button is btn, btn-variant and btn-size, then
    btn-full-width when fullWidth is set, then className when it is not
    empty, joined by single spaces with no separator left by an omitted
    part.  A disabled Button is always a button element; an enabled one
    is a Link when [to] is given, else an anchor when [href] is given,
    else a button. *)
Theorem Button_element p :
  Button.classes p
  = js "btn btn-" ++ Button.variant_string (Button.defaulted Button.primary (Button.variant p))
    ++ js " btn-" ++ Button.size_string (Button.defaulted Button.medium (Button.size p))
    ++ (if Button.defaulted false (Button.fullWidth p) then js " btn-full-width" else [])
    ++ (if falsy (Button.defaulted [] (Button.className p)) then []
        else SPACE :: Button.defaulted [] (Button.className p))
  /\ (Button.disabled p = Some true ->
      Button.Button p
      = Button.ButtonElement (Button.defaulted Button.button (Button.type p))
          true (Button.classes p))
  /\ (Button.defaulted false (Button.disabled p) = false ->
      Button.Button p
      = if Button.given (Button.to p)
        then Button.LinkElement (Button.defaulted [] (Button.to p)) (Button.classes p)
        else if Button.given (Button.href p)
        then Button.AnchorElement (Button.defaulted [] (Button.href p)) (Button.classes p)
        else Button.ButtonElement (Button.defaulted Button.button (Button.type p))
               false (Button.classes p)).
Proof.
  split; [|split].
  - unfold Button.classes.
    destruct (Button.defaulted Button.primary (Button.variant p));
    destruct (Button.defaulted Button.medium (Button.size p));
    destruct (Button.defaulted false (Button.fullWidth p));
    destruct (Button.defaulted [] (Button.className p)); reflexivity.
  - intros D. unfold Button.Button. rewrite D. simpl.
    rewrite !andb_false_r. reflexivity.
  - intros D. unfold Button.Button. rewrite D. simpl.
    rewrite !andb_true_r. reflexivity.
Qed.

(** ** The carousel of Home *)

Lemma indexAfter_mod n : Home.indexAfter n = n mod 4.
Proof.
  induction n as [|n IH]; [reflexivity|].
  simpl Home.indexAfter. unfold Home.nextIndex. rewrite IH.
  change (List.length Home.images) with 4.
  replace (S n) with (n + 1) by lia.
  rewrite Nat.Div0.add_mod_idemp_l. reflexivity.
Qed.

(** X9: after n ticks of the interval the carousel shows image n mod 4:
    the index never leaves the list of images, it returns to the same
    image every four ticks, and exactly one background image is active,
    the one at the index. *)
Theorem carousel_cycles n :
  Home.indexAfter n = n mod 4
  /\ Home.indexAfter n < List.length Home.images
  /\ Home.indexAfter (n + 4) = Home.indexAfter n
  /\ count_occ bool_dec (Home.active (Home.indexAfter n)) true = 1
  /\ nth (Home.indexAfter n) (Home.active (Home.indexAfter n)) false = true.
Proof.
  rewrite !indexAfter_mod.
  assert (B : n mod 4 < 4) by (apply Nat.mod_upper_bound; lia).
  split; [reflexivity|]. split; [exact B|]. split.
  - replace (n + 4) with (n + 1 * 4) by lia. now rewrite Nat.Div0.mod_add.
  - destruct (n mod 4) as [|[|[|[|k]]]]; try lia; split; reflexivity.
Qed.

(** ** More of the synchronizer *)

Lemma remove_nth_middle A (l r : list A) x :
  nth_error (l ++ x :: r) (List.length l) = Some x
  /\ remove_nth (List.length l) (l ++ x :: r) = l ++ r.
Proof.
  induction l as [|y l [IH1 IH2]]; simpl.
  - split; reflexivity.
  - split; [exact IH1|].
    change (remove_nth (S (List.length l)) (y :: l ++ x :: r))
      with (y :: remove_nth (List.length l) (l ++ x :: r)).
    now rewrite IH2.
Qed.

(** X11: isLoading does not count the outstanding operations.  When two
    operations are outstanding and the first settles, isLoading is false
    although the second is still outstanding; and a change-event
    delivered while an operation is outstanding sets isLoading to
    false. *)
Theorem loading_ignores_outstanding origin s a b o :
  settles a o = true ->
  (exists s',
      exec origin
        [Invoke a; Invoke b; Settle (List.length (pending s)) o] s = Some s'
      /\ AuthContext.isLoading (auth s') = false
      /\ operation_outstanding s' = true
      /\ map fst (pending s') = map fst (pending s) ++ [Operation b])
  /\ (subscribed s = true ->
      forall ses, exists s',
        exec origin [Invoke a; AuthStateChange ses] s = Some s'
        /\ AuthContext.isLoading (auth s') = false
        /\ operation_outstanding s' = true).
Proof.
  intros H. split.
  - cbn [exec]. rewrite !step_invoke. cbn [pending world].
    match goal with |- context [step origin _ ?s1] => set (s1_ := s1) end.
    destruct (settle_operation_total origin a o (world s1_) H) as (c & r & E).
    destruct (remove_nth_middle _ (pending s)
                [(Operation b, residual (invoke origin b))]
                (Operation a, residual (invoke origin a))) as [Hn Hr].
    assert (P : pending s1_
                = pending s ++ (Operation a, residual (invoke origin a))
                    :: [(Operation b, residual (invoke origin b))]).
    { subst s1_. cbn [pending]. now rewrite <- app_assoc. }
    rewrite <- P in Hn, Hr.
    rewrite (step_settle_at origin s1_ _ a o _ r Hn E).
    eexists. split; [reflexivity|]. unfold auth, operation_outstanding.
    cbn [world store pending AuthContext.isLoading AuthContext.setIsLoading].
    rewrite Hr. split; [reflexivity|]. split.
    + rewrite existsb_app. simpl. apply orb_true_r.
    + now rewrite map_app.
  - intros Sb ses. cbn [exec]. rewrite step_invoke. simpl. rewrite Sb.
    eexists. split; [reflexivity|]. unfold auth, operation_outstanding. simpl.
    split; [reflexivity|]. rewrite existsb_app. simpl. apply orb_true_r.
Qed.

(** X12: while the provider component is mounted its listener is
    subscribed: in every reachable mounted state a change-event is
    applied; session becomes the event's session, user its user,
    isLoading false, and the outstanding calls and settled promises are
    left as they are. *)
Theorem change_event_applied origin s ses :
  Reachable origin s ->
  mounted s = true ->
  step origin (AuthStateChange ses) s
  = Some {| world := {| store := {| AuthContext.user := AuthContext.user_of ses;
                                    AuthContext.session := ses;
                                    AuthContext.isLoading := false |};
                        console := console (world s) |};
            pending := pending s;
            settled := settled s;
            subscribed := true; mounted := true; unsubscribeCalls := 0 |}.
Proof.
  intros R M. apply Reachable_Invariant in R. destruct R as [_ _ _ Sb].
  rewrite M in Sb. destruct Sb as [Sb C]. simpl. rewrite Sb, M, C. reflexivity.
Qed.

(** ** The other functions of authService.tsx *)

(** X13: getCurrentSession never rejects.  It resolves with null when
    getSession reports an error (whatever session the response holds)
    and when getSession throws, and with the session of the response
    otherwise; it writes no state. *)
Theorem getCurrentSession_result (S : Type) (w : World S) :
  (forall r, exists c,
      settle_task authService.getCurrentSession
        (SettleSession (Fulfilled r)) w
      = Some ({| store := store w; console := c |},
              Fulfilled (match session_error r with
                         | Some _ => None
                         | None => session_data r
                         end)))
  /\ (forall e, exists c,
        settle_task authService.getCurrentSession
          (SettleSession (Rejected e)) w
        = Some ({| store := store w; console := c |}, Fulfilled None)).
Proof.
  destruct w as [st c0]. split.
  - intros [d [err|]]; eexists; reflexivity.
  - intros e. eexists. reflexivity.
Qed.

(** X14: getCurrentUser never rejects, whatever the provider does.  It
    resolves with null when getUser reports an error and when getUser
    throws, and with the user of the response otherwise. *)
Theorem getCurrentUser_result provider :
  snd (call_result provider authService_rest.getCurrentUser)
  = Fulfilled
      (match provider GetUser with
       | Fulfilled r =>
           match user_error r with
           | Some _ => None
           | None => user_data r
           end
       | Rejected _ => None
       end).
Proof.
  unfold authService_rest.getCurrentUser. simpl.
  destruct (provider GetUser) as [[u [err|]]|e]; reflexivity.
Qed.

(** X15: resetPassword never rejects, whatever the provider does.  It
    asks for a reset of the given email with the redirect
    origin/reset-password, hands on the error of the response unchanged,
    and resolves with the UnexpectedError descriptor when the call
    throws. *)
Theorem resetPassword_result provider origin email :
  snd (call_result provider (authService_rest.resetPassword origin email))
  = Fulfilled
      {| authService.logout_error :=
           match provider (ResetPasswordForEmail email
                             (origin ++ js "/reset-password")) with
           | Fulfilled r => reset_error r
           | Rejected _ =>
               Some {| name := js "UnexpectedError";
                       message := authService_rest.reset_failed |}
           end |}.
Proof.
  unfold authService_rest.resetPassword. simpl.
  destruct (provider (ResetPasswordForEmail email _)) as [r|e]; reflexivity.
Qed.

(** ** The theorems at sample inputs *)

Lemma validateEmail_accepted_witness :
  RegisterForm.validateEmail (js "ana@example.com") = true
  /\ count_occ N.eq_dec (js "ana@example.com") AT = 1
  /\ forallb (fun c => isLocalChar c || (c =? AT)%N) (js "ana@example.com")
     = true
  /\ forallb isWordOrHyphen (lastLabel (js "ana@example.com")) = true
  /\ 2 <= List.length (lastLabel (js "ana@example.com")) <= 4
  /\ 6 <= List.length (js "ana@example.com").
Proof.
  split; [reflexivity|].
  apply validateEmail_accepted. reflexivity.
Defined.

Lemma handleSubmit_outcome_witness :
  snd (RegisterForm.validation sample_form) = true
  /\ exists w',
      settle_task (RegisterForm.handleSubmit sample_origin sample_form)
        (SettleAuth (Fulfilled ok_response)) sample_page
      = Some (w', Fulfilled tt)
      /\ RegisterForm.isSubmitting (form (store w')) = false
      /\ navigations (store w') = [js "/login"].
Proof.
  split; [reflexivity|].
  destruct (handleSubmit_outcome sample_origin sample_form
              (Fulfilled ok_response) sample_page eq_refl)
    as (w' & E & Sb & _ & N & _).
  exists w'. split; [exact E|]. split; [exact Sb | exact N].
Defined.

Lemma handleLogin_outcome_witness :
  LoginForm.email sample_login_form <> []
  /\ LoginForm.password sample_login_form <> []
  /\ exists w',
      settle_task (LoginForm.handleLogin sample_login_form)
        (SettleAuth (Rejected sample_thrown)) sample_login_page
      = Some (w', Fulfilled tt)
      /\ LoginForm.isSubmitting (form (store w')) = false
      /\ navigations (store w') = []
      /\ LoginForm.error (form (store w')) = authService.login_failed.
Proof.
  assert (He : LoginForm.email sample_login_form <> []) by discriminate.
  assert (Hp : LoginForm.password sample_login_form <> []) by discriminate.
  split; [exact He|]. split; [exact Hp|].
  destruct (handleLogin_outcome sample_login_form
              (Rejected sample_thrown) sample_login_page He Hp)
    as (w' & E & Sb & _ & N & F).
  exists w'. split; [exact E|]. split; [exact Sb|]. split; [exact N|].
  rewrite F. reflexivity.
Defined.

Lemma routes_follow_session_witness :
  Reachable sample_origin logged_in
  /\ Routes.ProtectedRoute (Some (AuthContext.value (auth logged_in)))
     = inr {| Routes.output := Routes.Children; Routes.navigateCall := None |}
  /\ Routes.PublicRoute (Some (AuthContext.value (auth logged_in)))
     = inr {| Routes.output := Routes.Null; Routes.navigateCall := Some (js "/") |}.
Proof.
  split; [exact logged_in_reachable|].
  destruct (routes_follow_session sample_origin logged_in logged_in_reachable)
    as (_ & _ & _ & H).
  exact (H eq_refl).
Defined.

Lemma session_user_writers_witness :
  Reachable sample_origin mount
  /\ step sample_origin (Settle 0 (SettleSession (Fulfilled session_found))) mount
     = Some (after sample_origin
               [Settle 0 (SettleSession (Fulfilled session_found))])
  /\ ((exists ses,
          Settle 0 (SettleSession (Fulfilled session_found)) = AuthStateChange ses
          /\ subscribed mount = true)
      \/ (exists i t r,
            Settle 0 (SettleSession (Fulfilled session_found))
            = Settle i (SettleSession (Fulfilled r))
            /\ nth_error (pending mount) i = Some (InitialFetch, t))).
Proof.
  assert (R : Reachable sample_origin mount) by (exists []; reflexivity).
  split; [exact R|]. split; [reflexivity|].
  apply (session_user_writers sample_origin mount
           (Settle 0 (SettleSession (Fulfilled session_found)))
           (after sample_origin
              [Settle 0 (SettleSession (Fulfilled session_found))]) R eq_refl).
  left. discriminate.
Defined.

Lemma loading_ignores_outstanding_witness :
  settles Logout (SettleSignOut (Rejected sample_thrown)) = true
  /\ exists s',
      exec sample_origin
        [Invoke Logout; Invoke (Login (js "a@b.com") (js "secret"));
         Settle (List.length (pending ready))
           (SettleSignOut (Rejected sample_thrown))] ready = Some s'
      /\ AuthContext.isLoading (auth s') = false
      /\ operation_outstanding s' = true
      /\ map fst (pending s')
         = map fst (pending ready)
           ++ [Operation (Login (js "a@b.com") (js "secret"))].
Proof.
  split; [reflexivity|].
  apply (loading_ignores_outstanding sample_origin ready Logout
           (Login (js "a@b.com") (js "secret"))
           (SettleSignOut (Rejected sample_thrown)) eq_refl).
Defined.

Lemma change_event_applied_witness :
  Reachable sample_origin logged_in
  /\ mounted logged_in = true
  /\ option_map auth
       (step sample_origin (AuthStateChange (Some other_session)) logged_in)
     = Some {| AuthContext.user := Some sample_user;
               AuthContext.session := Some other_session;
               AuthContext.isLoading := false |}.
Proof.
  split; [exact logged_in_reachable|]. split; [reflexivity|].
  rewrite (change_event_applied sample_origin logged_in (Some other_session)
             logged_in_reachable eq_refl).
  reflexivity.
Defined.

Lemma handleSubmit_refuses_address_witness :
  4 < List.length
        (lastLabel
           (RegisterForm.email
              (RegisterForm.with_email (js "ana@example.museum") sample_form)))
  /\ signUp_request
       (RegisterForm.handleSubmit sample_origin
          (RegisterForm.with_email (js "ana@example.museum") sample_form))
     = None.
Proof.
  assert (L : 4 < List.length
                 (lastLabel
                    (RegisterForm.email
                       (RegisterForm.with_email (js "ana@example.museum")
                          sample_form)))) by (vm_compute; lia).
  split; [exact L|].
  apply (handleSubmit_refuses_address sample_origin
           (RegisterForm.with_email (js "ana@example.museum") sample_form)).
  right. right. right. exact L.
Defined.
